(** * VMX scenario comparison: the delta/heat computation of [App.tsx]

    A shallow embedding of the pure parts of [src/App.tsx]: the selection
    normaliser, the evaluation error boundary [computeSafe] and the [delta]
    computation that compares two scenario results.

    Conventions.
    - A JavaScript [number] is an exact rational ([Q]); the values handled
      here are finite amounts of money and fractions, and NaN and the
      infinities are left out.  The code compares numbers, takes signs of
      differences and divides once per row; rounding is not modelled.
      Results of arithmetic are compared with [==] ([Qeq]).  The properties
      below are of the kind that rounding keeps: they compare the numbers
      of a row, negate a difference or order rows by magnitude; none adds
      rounded numbers up, and none needs the quotient of a non-zero number
      to be non-zero.
    - A JavaScript object used as a record keyed by strings is a
      [gmap string _]; a [Set] of strings is a [gset string].
    - A function that may [throw] returns a [Completion]. *)

From Stdlib Require Import QArith Qabs Qminmax Lqa.
From stdpp Require Import gmap strings list sorting pretty.

(** ** JavaScript: numbers, completions, [Array.prototype.sort], values *)

Module Js.

(** [x > y] and [x >= y] on numbers. *)
Definition gt (x y : Q) : bool :=
  match (x ?= y)%Q with Gt => true | _ => false end.

Definition lt (x y : Q) : bool := gt y x.

Definition ge (x y : Q) : bool := Qle_bool y x.

(** What a [throw] carries: an [Error] instance with its [message], or any
    other value ([e instanceof Error] is false for it). *)
Inductive Thrown : Type :=
| ErrorObject (message : string)
| NonErrorValue.

Inductive Completion (A : Type) : Type :=
| Normal (v : A)
| Throw (e : Thrown).

Arguments Normal {A} v.
Arguments Throw {A} e.

Definition bind {A B : Type} (c : Completion A) (k : A → Completion B)
  : Completion B :=
  match c with
  | Normal v => k v
  | Throw e => Throw e
  end.

(** [xs.map(f)] for a callback that may throw: the elements are visited
    from left to right and the first [throw] ends the call. *)
Fixpoint array_map {A B : Type} (f : A → Completion B) (xs : list A)
  : Completion (list B) :=
  match xs with
  | [] => Normal []
  | x :: rest =>
      bind (f x) (λ y, bind (array_map f rest) (λ ys, Normal (y :: ys)))
  end.

Section ArraySort.
Context {A : Type} (comparefn : A → A → Q).

(** [xs.sort(comparefn)].  The language fixes the result for a consistent
    comparator: ascending for [comparefn] and stable.  The element [x]
    goes behind [y] only when [comparefn(x, y) > 0]; stable insertion
    from the right is taken as the algorithm. *)
Fixpoint sort_insert (x : A) (sorted : list A) : list A :=
  match sorted with
  | [] => [x]
  | y :: rest =>
      if gt (comparefn x y) 0 then y :: sort_insert x rest
      else x :: sorted
  end.

Fixpoint array_sort (xs : list A) : list A :=
  match xs with
  | [] => []
  | x :: rest => sort_insert x (array_sort rest)
  end.
End ArraySort.

(** Plain data as [JSON.parse] and object literals produce it.  An array is
    an object whose own properties are its indices and [length]. *)
#[local] Unset Elimination Schemes.
Inductive JsValue : Type :=
| JsUndefined
| JsNull
| JsBoolean (b : bool)
| JsNumber (q : Q)
| JsString (s : string)
| JsFunction
| JsObject (props : gmap string JsValue).
#[local] Set Elimination Schemes.

(** [!v] is [negb (truthy v)]. *)
Definition truthy (v : JsValue) : bool :=
  match v with
  | JsUndefined | JsNull => false
  | JsBoolean b => b
  | JsNumber q => negb (Qeq_bool q 0)
  | JsString s => negb (String.eqb s EmptyString)
  | JsFunction | JsObject _ => true
  end.

Definition typeof (v : JsValue) : string :=
  match v with
  | JsUndefined => "undefined"
  | JsNull => "object"
  | JsBoolean _ => "boolean"
  | JsNumber _ => "number"
  | JsString _ => "string"
  | JsFunction => "function"
  | JsObject _ => "object"
  end.

(** [v[k]] on own properties.  The code below reads properties of objects
    only; for any other value the answer here is [undefined]. *)
Definition get (v : JsValue) (k : string) : JsValue :=
  match v with
  | JsObject props => default JsUndefined (props !! k)
  | _ => JsUndefined
  end.

(** [v === s] for a string literal or string variable [s]. *)
Definition strict_eq_string (v : JsValue) (s : string) : bool :=
  match v with
  | JsString t => String.eqb t s
  | _ => false
  end.

End Js.

Import Js.

(** ** The types of [./domain/vmx-domain] as [App.tsx] reads them *)

Module Domain.

(** An entry of [VMX_CATEGORIES]; only [c.id] is read. *)
Record VmxCategory : Type := { id : string }.

(** An element of [ScenarioResult.categories]. *)
Record CategoryCost : Type := {
  categoryId : string;
  label : string;
  cost : Q;
  pctOfTotal : Q;
}.

Record ScenarioResult : Type := {
  totalCost : Q;
  currency : string;
  categories : list CategoryCost;
}.

End Domain.

(** ** [App.tsx]: delta rows *)

Inductive DeltaHeat : Type := low | medium | high.
Inductive DeltaDirection : Type := increase | decrease | flat.
Inductive DeltaSortMode : Type := impact | category.

Record DeltaRow : Type := {
  categoryId : string;
  categoryLabel : string;
  deltaCost : Q;          (* B - A *)
  deltaPct : Q;           (* B% - A% *)
  absFracOfATotal : Q;    (* |deltaCost| / A total *)
  direction : DeltaDirection;
  heat : DeltaHeat;
  isTopDriver : bool;
}.

(** The component state read by the [delta] memo. *)
Record DeltaSettings : Type := {
  deltaMediumThr : Q;
  deltaHighThr : Q;
  deltaSort : DeltaSortMode;
  deltaDriversOnly : bool;
}.

Record DeltaReport : Type := {
  totalDelta : Q;
  rows : list DeltaRow;
  increases : list DeltaRow;
  decreases : list DeltaRow;
  currency : string;
  aTotal : Q;
  bTotal : Q;
}.

Definition heat_is_low (h : DeltaHeat) : bool :=
  match h with low => true | _ => false end.

Section Delta.
Variable VMX_CATEGORIES : list Domain.VmxCategory.
Variable settings : DeltaSettings.

(** [const aTotal = resultA.totalCost > 0 ? resultA.totalCost : 1] *)
Definition aTotalDivisor (resultA : Domain.ScenarioResult) : Q :=
  if gt (Domain.totalCost resultA) 0 then Domain.totalCost resultA else 1.

(** The heat a row gets from its impact fraction alone:
    [if (absFrac >= deltaHighThr) ... else if (absFrac >= deltaMediumThr) ...]. *)
Definition thresholdHeat (absFrac : Q) : DeltaHeat :=
  if ge absFrac (deltaHighThr settings) then high
  else if ge absFrac (deltaMediumThr settings) then medium
  else low.

(** The callback of [resultA.categories.map(...)]. *)
Definition baseRow (aTotal : Q) (resultB : Domain.ScenarioResult)
    (a : Domain.CategoryCost) : Completion DeltaRow :=
  match List.find (λ x, String.eqb (Domain.categoryId x) (Domain.categoryId a))
                  (Domain.categories resultB) with
  | None =>
      Throw (ErrorObject ("Missing category in Scenario B: " +:+ Domain.categoryId a))
  | Some b =>
      let deltaCost := (Domain.cost b - Domain.cost a)%Q in
      let deltaPct := (Domain.pctOfTotal b - Domain.pctOfTotal a)%Q in
      let absFrac := (Qabs deltaCost / aTotal)%Q in
      let direction :=
        if gt deltaCost 0 then increase
        else if lt deltaCost 0 then decrease
        else flat in
      let heat := thresholdHeat absFrac in
      Normal {| categoryId := Domain.categoryId a;
                categoryLabel := Domain.label a;
                deltaCost := deltaCost;
                deltaPct := deltaPct;
                absFracOfATotal := absFrac;
                direction := direction;
                heat := heat;
                isTopDriver := false |}
  end.

Definition baseRows (resultA resultB : Domain.ScenarioResult)
  : Completion (list DeltaRow) :=
  array_map (baseRow (aTotalDivisor resultA) resultB) (Domain.categories resultA).

(** [[...baseRows].filter((r) => Math.abs(r.deltaCost) > 0)] *)
Definition eligible (baseRows : list DeltaRow) : list DeltaRow :=
  List.filter (λ r, gt (Qabs (deltaCost r)) 0) baseRows.

Definition byAbs (baseRows : list DeltaRow) : list DeltaRow :=
  array_sort (λ x y, (Qabs (deltaCost y) - Qabs (deltaCost x))%Q) (eligible baseRows).

Definition topSet (baseRows : list DeltaRow) : gset string :=
  list_to_set (map categoryId (firstn 3 (byAbs baseRows))).

(** The callback of [baseRows.map(...)] that sets the driver flag and
    applies the heat upgrade. *)
Definition markRow (top : gset string) (r : DeltaRow) : DeltaRow :=
  let isTopDriver := bool_decide (categoryId r ∈ top) in
  let heat :=
    if isTopDriver && heat_is_low (heat r) && gt (absFracOfATotal r) 0
    then medium else heat r in
  {| categoryId := categoryId r;
     categoryLabel := categoryLabel r;
     deltaCost := deltaCost r;
     deltaPct := deltaPct r;
     absFracOfATotal := absFracOfATotal r;
     direction := direction r;
     heat := heat;
     isTopDriver := isTopDriver |}.

Definition markedRows (baseRows : list DeltaRow) : list DeltaRow :=
  map (markRow (topSet baseRows)) baseRows.

(** [new Map(VMX_CATEGORIES.map((c, idx) => [c.id, idx]))]: a later entry
    with the same key replaces an earlier one. *)
Definition order : gmap string nat :=
  foldl (λ m kv, <[kv.1 := kv.2]> m) ∅
        (imap (λ idx c, (Domain.id c, idx)) VMX_CATEGORIES).

(** [order.get(id) ?? 999] *)
Definition orderOf (id : string) : Q :=
  match order !! id with
  | Some idx => inject_Z (Z.of_nat idx)
  | None => 999
  end.

Definition sortRows (rows : list DeltaRow) : list DeltaRow :=
  match deltaSort settings with
  | impact =>
      array_sort (λ a b, (Qabs (deltaCost b) - Qabs (deltaCost a))%Q) rows
  | category =>
      array_sort (λ a b, (orderOf (categoryId a) - orderOf (categoryId b))%Q) rows
  end.

(** [if (deltaDriversOnly) rows = rows.filter((r) => r.isTopDriver)] *)
Definition shownRows (rows : list DeltaRow) : list DeltaRow :=
  if deltaDriversOnly settings then List.filter isTopDriver rows else rows.

Definition largestIncreases (rows : list DeltaRow) : list DeltaRow :=
  firstn 3 (array_sort (λ a b, (deltaCost b - deltaCost a)%Q)
                       (List.filter (λ r, gt (deltaCost r) 0) rows)).

Definition largestDecreases (rows : list DeltaRow) : list DeltaRow :=
  firstn 3 (array_sort (λ a b, (deltaCost a - deltaCost b)%Q)
                       (List.filter (λ r, lt (deltaCost r) 0) rows)).

(** The [delta] memo: [null], a report, or the [throw] of a missing
    category. *)
Definition delta (compareMode : bool)
    (resultA resultB : option Domain.ScenarioResult)
  : Completion (option DeltaReport) :=
  match compareMode, resultA, resultB with
  | true, Some resultA, Some resultB =>
      bind (baseRows resultA resultB) (λ baseRows,
        let rows := shownRows (sortRows (markedRows baseRows)) in
        Normal (Some {|
          totalDelta := (Domain.totalCost resultB - Domain.totalCost resultA)%Q;
          rows := rows;
          increases := largestIncreases rows;
          decreases := largestDecreases rows;
          currency := Domain.currency resultA;
          aTotal := Domain.totalCost resultA;
          bTotal := Domain.totalCost resultB |}))
  | _, _, _ => Normal None
  end.
End Delta.

(** ** [App.tsx]: the evaluation error boundary *)

Section ComputeSafe.
(** [BenchmarkSet] and [ScenarioSelection] are only passed through. *)
Context {BenchmarkSet ScenarioSelection : Type}.

(** [computeScenarioResult] of the domain module: it returns a result or
    throws. *)
Variable computeScenarioResult :
  Q → BenchmarkSet → list ScenarioSelection → Completion Domain.ScenarioResult.

Record Computed : Type := {
  result : option Domain.ScenarioResult;
  error : option string;
}.

Definition computeSafe (areaSqft : Q) (benchmark : BenchmarkSet)
    (selections : list ScenarioSelection) : Computed :=
  match computeScenarioResult areaSqft benchmark selections with
  | Normal result => {| result := Some result; error := None |}
  | Throw e =>
      {| result := None;
         error := Some match e with
                       | ErrorObject message => message
                       | NonErrorValue => "Unknown error"
                       end |}
  end.
End ComputeSafe.

(** ** [App.tsx]: stored selections *)

Section Selections.
Variable VMX_CATEGORIES : list Domain.VmxCategory.

(** The object literal [{ categoryId: id, band: band }]. *)
Definition selection (id band : string) : JsValue :=
  JsObject (<["categoryId" := JsString id]> (<["band" := JsString band]> ∅)).

Definition buildDefaultSelections : gmap string JsValue :=
  foldl (λ rec c, <[Domain.id c := selection (Domain.id c) "MEDIUM"]> rec)
        ∅ VMX_CATEGORIES.

(** The condition of the [if] in the loop of [normalizeSelections]. *)
Definition acceptable (maybe : JsValue) (id : string) : bool :=
  truthy maybe
  && String.eqb (typeof maybe) "object"
  && (strict_eq_string (get maybe "band") "LOW"
      || strict_eq_string (get maybe "band") "MEDIUM"
      || strict_eq_string (get maybe "band") "HIGH")
  && strict_eq_string (get maybe "categoryId") id.

(** Reading properties of plain data does not throw, so the [catch] branch
    is not reached here. *)
Definition normalizeSelections (input : JsValue) (fallback : gmap string JsValue)
  : gmap string JsValue :=
  if negb (truthy input) || negb (String.eqb (typeof input) "object")
  then fallback
  else
    foldl (λ out c,
             let maybe := get input (Domain.id c) in
             if acceptable maybe (Domain.id c)
             then <[Domain.id c := maybe]> out
             else out)
          fallback VMX_CATEGORIES.
End Selections.

(** ** [App.tsx]: the two evaluations and the comparison *)

Section Evaluations.
Context {BenchmarkSet ScenarioSelection : Type}.
Variable computeScenarioResult :
  Q → BenchmarkSet → list ScenarioSelection → Completion Domain.ScenarioResult.

(** The memo [computedA]; [selections] is [Object.values(selA)]. *)
Definition computedA (areaSqft : Q) (benchmarkA : BenchmarkSet)
    (selections : list ScenarioSelection) : Computed :=
  computeSafe computeScenarioResult areaSqft benchmarkA selections.

(** The memo [computedB]: nothing is evaluated outside compare mode. *)
Definition computedB (compareMode : bool) (areaSqft : Q) (benchmarkB : BenchmarkSet)
    (selections : list ScenarioSelection) : Computed :=
  if negb compareMode then {| result := None; error := None |}
  else computeSafe computeScenarioResult areaSqft benchmarkB selections.

(** The memo [delta] over the results of the two memos above. *)
Definition comparison (VMX_CATEGORIES : list Domain.VmxCategory)
    (settings : DeltaSettings) (compareMode : bool) (areaSqft : Q)
    (benchmarkA benchmarkB : BenchmarkSet)
    (selectionsA selectionsB : list ScenarioSelection)
  : Completion (option DeltaReport) :=
  delta VMX_CATEGORIES settings compareMode
        (result (computedA areaSqft benchmarkA selectionsA))
        (result (computedB compareMode areaSqft benchmarkB selectionsB)).
End Evaluations.

(** ** [App.tsx]: changing a band *)

(** The own enumerable properties an object spread [{...v}] copies: those of
    an object, the characters of a string under their indices, and nothing
    for [undefined], [null], booleans, numbers and functions.  Every own
    property of a plain object is enumerable.  An array is not told apart
    from a plain object here, so for an array the copy keeps [length], which
    JavaScript leaves out; the records [setBand] works on hold selection
    objects, or nothing, under a key. *)
Definition spread (v : JsValue) : gmap string JsValue :=
  match v with
  | JsObject props => props
  | JsString s =>
      list_to_map (imap (λ i c, (pretty i, JsString (String c EmptyString)))
                        (String.list_ascii_of_string s))
  | _ => ∅
  end.

(** The updater of [setBandA] and [setBandB]:
    [(prev) => ({ ...prev, [categoryId]: { ...prev[categoryId], band } })]. *)
Definition setBand (categoryId band : string) (prev : gmap string JsValue)
  : gmap string JsValue :=
  <[categoryId :=
      JsObject (<["band" := JsString band]>
                  (spread (default JsUndefined (prev !! categoryId))))]> prev.

(** ** [App.tsx]: regions *)

Module Library.

(** A region of the benchmark library; only [r.id] is read here. *)
Record Region : Type := { id : string }.

Record BenchmarkLibrary : Type := { regions : list Region }.

End Library.

Definition pickSecondRegionId (lib : Library.BenchmarkLibrary) (primaryId : string)
  : string :=
  match List.find (λ r, negb (String.eqb (Library.id r) primaryId))
                  (Library.regions lib) with
  | Some other => Library.id other
  | None => primaryId
  end.

(** [library.regions.some((r) => r.id === id)] *)
Definition hasRegion (library : Library.BenchmarkLibrary) (id : string) : bool :=
  existsb (λ r, String.eqb (Library.id r) id) (Library.regions library).

(** The effect that keeps the two region ids valid when the library
    changes, as the pair of ids after it.  Both tests read the ids of the
    current render.  [None]: reading [library.regions[0].id] of an empty
    list throws and the effect ends there. *)
Definition keepRegionIdsValid (library : Library.BenchmarkLibrary)
    (regionAId regionBId : string) : option (string * string) :=
  let nextA :=
    if hasRegion library regionAId then Some regionAId
    else match Library.regions library with
         | first :: _ => Some (Library.id first)
         | [] => None
         end in
  match nextA with
  | None => None
  | Some a =>
      Some (a, if hasRegion library regionBId then regionBId
               else pickSecondRegionId library regionAId)
  end.

(** ** [App.tsx]: threshold inputs and stored preferences *)

Inductive LocalStorage : Type :=
| Unavailable
| Available (items : gmap string string).

Section Browser.
(** [Number(v)] on a string; [None] when the result is NaN or an infinity,
    which [Number.isFinite] rejects alike. *)
Variable Number : string → option Q.

(** [String(n)] on a number. *)
Variable numberToString : Q → string.

Variable JSON_parse : string → option JsValue.   (* [None]: it throws *)
Variable JSON_stringify : JsValue → string.

(** Whether the browser takes a write to [localStorage] (it may refuse one
    when the quota is used up). *)
Variable accepts : gmap string string → string → string → bool.

Definition inputToPct (v : string) : Q :=
  match Number v with
  | Some n => (n / 100)%Q
  | None => 0
  end.

(** [onChange] of the medium threshold input. *)
Definition onMediumThresholdInput (value : string) (s : DeltaSettings)
  : DeltaSettings :=
  let next := Qmax 0 (inputToPct value) in
  {| deltaMediumThr := next;
     deltaHighThr := if lt (deltaHighThr s) next then next else deltaHighThr s;
     deltaSort := deltaSort s;
     deltaDriversOnly := deltaDriversOnly s |}.

(** [onChange] of the high threshold input. *)
Definition onHighThresholdInput (value : string) (s : DeltaSettings)
  : DeltaSettings :=
  let next := Qmax (deltaMediumThr s) (inputToPct value) in
  {| deltaMediumThr := deltaMediumThr s;
     deltaHighThr := next;
     deltaSort := deltaSort s;
     deltaDriversOnly := deltaDriversOnly s |}.

(** [localStorage.getItem(key)]: [None] when the access throws,
    [Some None] for [null]. *)
Definition getItem (ls : LocalStorage) (key : string) : option (option string) :=
  match ls with
  | Unavailable => None
  | Available items => Some (items !! key)
  end.

(** [localStorage.setItem(key, value)]: [None] when it throws. *)
Definition setItem (ls : LocalStorage) (key value : string) : option LocalStorage :=
  match ls with
  | Unavailable => None
  | Available items =>
      if accepts items key value then Some (Available (<[key := value]> items))
      else None
  end.

(** [try { setItem(k1, v1); setItem(k2, v2); ... } catch { }]: the writes
    before the first one that throws stay. *)
Fixpoint setItemsUntilThrow (ls : LocalStorage) (writes : list (string * string))
  : LocalStorage :=
  match writes with
  | [] => ls
  | (key, value) :: rest =>
      match setItem ls key value with
      | Some ls' => setItemsUntilThrow ls' rest
      | None => ls
      end
  end.

(** [raw ? Number(raw) : fallback] followed by the test
    [Number.isFinite(parsed) && ok(parsed) ? parsed : fallback], inside
    [try { ... } catch { return fallback }]. *)
Definition storedNumber (ls : LocalStorage) (key : string) (ok : Q → bool)
    (fallback : Q) : Q :=
  match getItem ls key with
  | None => fallback
  | Some raw =>
      let parsed :=
        match raw with
        | Some s => if String.eqb s EmptyString then Some fallback else Number s
        | None => Some fallback
        end in
      match parsed with
      | Some n => if ok n then n else fallback
      | None => fallback
      end
  end.

(** The initial value of [areaSqft]. *)
Definition initialAreaSqft (ls : LocalStorage) : Q :=
  storedNumber ls "vmx_area_sqft_v1" (λ n, gt n 0) 15000.

Definition initialDeltaMediumThr (ls : LocalStorage) : Q :=
  storedNumber ls "vmx_delta_medium_thr_v1" (λ _, true) (15 # 1000).

Definition initialDeltaHighThr (ls : LocalStorage) : Q :=
  storedNumber ls "vmx_delta_high_thr_v1" (λ _, true) (3 # 100).

(** [localStorage.getItem(key) === text], [false] when the access throws. *)
Definition storedIs (ls : LocalStorage) (key text : string) : bool :=
  match getItem ls key with
  | Some (Some raw) => String.eqb raw text
  | _ => false
  end.

Definition initialCompareMode (ls : LocalStorage) : bool :=
  storedIs ls "vmx_compare_mode_v1" "true".

Definition initialDeltaSort (ls : LocalStorage) : DeltaSortMode :=
  if storedIs ls "vmx_delta_sort_v1" "category" then category else impact.

Definition initialDeltaDriversOnly (ls : LocalStorage) : bool :=
  storedIs ls "vmx_delta_drivers_only_v1" "true".

Definition initialDeltaSettings (ls : LocalStorage) : DeltaSettings :=
  {| deltaMediumThr := initialDeltaMediumThr ls;
     deltaHighThr := initialDeltaHighThr ls;
     deltaSort := initialDeltaSort ls;
     deltaDriversOnly := initialDeltaDriversOnly ls |}.

(** [String(b)] on a boolean. *)
Definition booleanToString (b : bool) : string := if b then "true" else "false".

(** The text of a sort mode, a string in the source. *)
Definition sortModeText (m : DeltaSortMode) : string :=
  match m with impact => "impact" | category => "category" end.

(** The effects that store the area, the compare mode and the delta
    settings. *)
Definition persistArea (areaSqft : Q) (ls : LocalStorage) : LocalStorage :=
  setItemsUntilThrow ls [("vmx_area_sqft_v1", numberToString areaSqft)].

(** The [setItem] calls of the compare effect and of the delta settings
    effect, in their order. *)
Definition compareWrites (compareMode : bool) (regionBId : string)
  : list (string * string) :=
  [("vmx_compare_mode_v1", booleanToString compareMode);
   ("vmx_compare_region_b_v1", regionBId)].

Definition deltaSettingsWrites (s : DeltaSettings) : list (string * string) :=
  [("vmx_delta_medium_thr_v1", numberToString (deltaMediumThr s));
   ("vmx_delta_high_thr_v1", numberToString (deltaHighThr s));
   ("vmx_delta_sort_v1", sortModeText (deltaSort s));
   ("vmx_delta_drivers_only_v1", booleanToString (deltaDriversOnly s))].

Definition persistCompare (compareMode : bool) (regionBId : string)
    (ls : LocalStorage) : LocalStorage :=
  setItemsUntilThrow ls (compareWrites compareMode regionBId).

Definition persistDeltaSettings (s : DeltaSettings) (ls : LocalStorage)
  : LocalStorage :=
  setItemsUntilThrow ls (deltaSettingsWrites s).

(** [readJson]: [null] for a missing or empty item, for text that does not
    parse and for storage that throws. *)
Definition readJson (ls : LocalStorage) (key : string) : JsValue :=
  match getItem ls key with
  | Some (Some raw) =>
      if String.eqb raw EmptyString then JsNull
      else match JSON_parse raw with
           | Some v => v
           | None => JsNull
           end
  | _ => JsNull
  end.

Definition writeJson (key : string) (value : JsValue) (ls : LocalStorage)
  : LocalStorage :=
  setItemsUntilThrow ls [(key, JSON_stringify value)].

(** The initial value of [selA] ([key] is "vmx_sel_a_v1") and of [selB]. *)
Definition initialSelections (VMX_CATEGORIES : list Domain.VmxCategory)
    (ls : LocalStorage) (key : string) : gmap string JsValue :=
  normalizeSelections VMX_CATEGORIES (readJson ls key)
                      (buildDefaultSelections VMX_CATEGORIES).
End Browser.

(** ** Notions used to state the properties *)

(** [x] is ranked before [y]: a smaller sort key, or the same key and an
    earlier position. *)
Definition ranked_before {A : Type} (key pos : A → Q) (x y : A) : Prop :=
  (key x < key y ∨ (key x == key y ∧ pos x < pos y))%Q.

Definition ranked_beforeb {A : Type} (key pos : A → Q) (x y : A) : bool :=
  lt (key x) (key y) || (Qeq_bool (key x) (key y) && lt (pos x) (pos y)).

(** The result has exactly one entry per catalog category, in catalog
    order. *)
Definition fromCatalog (VMX_CATEGORIES : list Domain.VmxCategory)
    (r : Domain.ScenarioResult) : Prop :=
  map Domain.categoryId (Domain.categories r) = map Domain.id VMX_CATEGORIES.

(** The position of a row's category in the catalog. *)
Definition catalogPos (VMX_CATEGORIES : list Domain.VmxCategory) (r : DeltaRow) : Q :=
  orderOf VMX_CATEGORIES (categoryId r).

(** Ranking for the driver selection: larger [|deltaCost|] first, equal
    magnitudes in catalog order. *)
Definition impactKey (r : DeltaRow) : Q := (- Qabs (deltaCost r))%Q.

Definition outranks (VMX_CATEGORIES : list Domain.VmxCategory) (r' r : DeltaRow) : bool :=
  ranked_beforeb impactKey (catalogPos VMX_CATEGORIES) r' r.

(** [r1] may stand before [r2] in impact order: its [|deltaCost|] is not
    smaller, and with equal magnitudes it comes first in the catalog. *)
Definition impactOrdered (VMX_CATEGORIES : list Domain.VmxCategory)
    (r1 r2 : DeltaRow) : Prop :=
  (Qabs (deltaCost r2) <= Qabs (deltaCost r1))%Q
  ∧ (Qabs (deltaCost r1) == Qabs (deltaCost r2) →
     (catalogPos VMX_CATEGORIES r1 < catalogPos VMX_CATEGORIES r2)%Q).

(** How many rows with a non-zero [deltaCost] are ranked before [r]. *)
Definition driverRank (VMX_CATEGORIES : list Domain.VmxCategory)
    (baseRows : list DeltaRow) (r : DeltaRow) : nat :=
  length (List.filter (λ r', outranks VMX_CATEGORIES r' r) (eligible baseRows)).

Definition heat_le (h1 h2 : DeltaHeat) : Prop :=
  match h1, h2 with
  | low, _ => True
  | medium, (medium | high) => True
  | high, high => True
  | _, _ => False
  end.

(** A well-formed selection stored under key [k]: an object whose
    [categoryId] is [k] and whose [band] is one of the three bands. *)
Definition wellFormedSelection (k : string) (v : JsValue) : Prop :=
  ∃ props band,
    v = JsObject props
    ∧ props !! "categoryId" = Some (JsString k)
    ∧ props !! "band" = Some (JsString band)
    ∧ (band = "LOW" ∨ band = "MEDIUM" ∨ band = "HIGH").

(** One of the three bands. *)
Definition validBand (band : string) : Prop :=
  band = "LOW" ∨ band = "MEDIUM" ∨ band = "HIGH".

(** A record of selections as the evaluation expects it: its keys are the
    catalog ids and every entry is a well-formed selection for its key. *)
Definition selectionsFor (VMX_CATEGORIES : list Domain.VmxCategory)
    (m : gmap string JsValue) : Prop :=
  (∀ k, is_Some (m !! k) ↔ In k (map Domain.id VMX_CATEGORIES))
  ∧ (∀ k v, m !! k = Some v → wellFormedSelection k v).

(** An edit of one of the two threshold inputs. *)
Inductive ThresholdInput : Type :=
| MediumInput (value : string)
| HighInput (value : string).

Definition applyThresholdInput (Number : string → option Q)
    (s : DeltaSettings) (e : ThresholdInput) : DeltaSettings :=
  match e with
  | MediumInput value => onMediumThresholdInput Number value s
  | HighInput value => onHighThresholdInput Number value s
  end.

(** The ids of the rows marked as top drivers. *)
Definition driverIds (rows : list DeltaRow) : list string :=
  map categoryId (List.filter isTopDriver rows).

(** Every write of the list is taken, one after the other. *)
Fixpoint allAccepted (accepts : gmap string string → string → string → bool)
    (items : gmap string string) (writes : list (string * string)) : bool :=
  match writes with
  | [] => true
  | (key, value) :: rest =>
      accepts items key value && allAccepted accepts (<[key := value]> items) rest
  end.

(** ** Sample data *)

Module Sample.

Definition catalog : list Domain.VmxCategory :=
  [ {| Domain.id := "W" |}; {| Domain.id := "X" |};
    {| Domain.id := "Y" |}; {| Domain.id := "Z" |} ].

Definition entry (id : string) (c p : Q) : Domain.CategoryCost :=
  {| Domain.categoryId := id; Domain.label := id;
     Domain.cost := c; Domain.pctOfTotal := p |}.

Definition scenarioA : Domain.ScenarioResult :=
  {| Domain.totalCost := 2000; Domain.currency := "USD";
     Domain.categories :=
       [ entry "W" 500 (1#4); entry "X" 1000 (1#2);
         entry "Y" 300 (3#20); entry "Z" 200 (1#10) ] |}.

Definition scenarioB : Domain.ScenarioResult :=
  {| Domain.totalCost := 1940; Domain.currency := "USD";
     Domain.categories :=
       [ entry "W" 600 (30#97); entry "X" 910 (91#194);
         entry "Y" 220 (11#97); entry "Z" 210 (21#194) ] |}.

Definition settingsWith (mode : DeltaSortMode) (driversOnly : bool) : DeltaSettings :=
  {| deltaMediumThr := 15 # 1000; deltaHighThr := 3 # 100;
     deltaSort := mode; deltaDriversOnly := driversOnly |}.

(** Thresholds so coarse that no sample row reaches them. *)
Definition coarseSettings : DeltaSettings :=
  {| deltaMediumThr := 1 # 10; deltaHighThr := 1 # 5;
     deltaSort := impact; deltaDriversOnly := false |}.

(** The report of a comparison that is known to return one. *)
Definition reportOf (settings : DeltaSettings)
    (resultA resultB : Domain.ScenarioResult) : DeltaReport :=
  match delta catalog settings true (Some resultA) (Some resultB) with
  | Normal (Some rep) => rep
  | _ => {| totalDelta := 0; rows := []; increases := []; decreases := [];
            currency := EmptyString; aTotal := 0; bTotal := 0 |}
  end.

Definition rowAt (rep : DeltaReport) (i : nat) : DeltaRow :=
  nth i (rows rep)
      {| categoryId := EmptyString; categoryLabel := EmptyString;
         deltaCost := 0; deltaPct := 0;
         absFracOfATotal := 0; direction := flat; heat := low;
         isTopDriver := false |}.

(** A scenario whose total is positive and below one. *)
Definition smallA : Domain.ScenarioResult :=
  {| Domain.totalCost := 1 # 2; Domain.currency := "USD";
     Domain.categories := [ entry "W" (1#2) 1 ] |}.

Definition smallB : Domain.ScenarioResult :=
  {| Domain.totalCost := 1; Domain.currency := "USD";
     Domain.categories := [ entry "W" 1 1 ] |}.

(** A result for B that has lost category "Y". *)
Definition lackingB : Domain.ScenarioResult :=
  {| Domain.totalCost := 1720; Domain.currency := "USD";
     Domain.categories :=
       [ entry "W" 600 (30#86); entry "X" 910 (91#172); entry "Z" 210 (21#172) ] |}.

(** Scenario A with its entries out of catalog order. *)
Definition shuffledA : Domain.ScenarioResult :=
  {| Domain.totalCost := 2000; Domain.currency := "USD";
     Domain.categories :=
       [ entry "Y" 300 (3#20); entry "W" 500 (1#4);
         entry "Z" 200 (1#10); entry "X" 1000 (1#2) ] |}.

(** The example of the specification: catalog X, Y, Z and an area of 1000. *)
Definition specCatalog : list Domain.VmxCategory :=
  [ {| Domain.id := "X" |}; {| Domain.id := "Y" |}; {| Domain.id := "Z" |} ].

Definition specA : Domain.ScenarioResult :=
  {| Domain.totalCost := 1700; Domain.currency := "USD";
     Domain.categories :=
       [ entry "X" 500 (5#17); entry "Y" 1000 (10#17); entry "Z" 200 (2#17) ] |}.

Definition specB : Domain.ScenarioResult :=
  {| Domain.totalCost := 1700; Domain.currency := "USD";
     Domain.categories :=
       [ entry "X" 600 (6#17); entry "Y" 900 (9#17); entry "Z" 200 (2#17) ] |}.

(** Stored selections: a good entry, an entry under the wrong key, an entry
    that is no object, and an entry for an unknown category. *)
Definition stored : JsValue :=
  JsObject (<["W" := selection "W" "HIGH"]>
           (<["X" := selection "Y" "LOW"]>
           (<["Y" := JsString "HIGH"]>
           (<["Q" := selection "Q" "LOW"]> ∅)))).

(** [computeScenarioResult] stand-ins: one returns, one throws. *)
Definition evaluates (areaSqft : Q) (benchmark : unit) (selections : list unit)
  : Completion Domain.ScenarioResult := Normal scenarioA.

Definition fails (areaSqft : Q) (benchmark : unit) (selections : list unit)
  : Completion Domain.ScenarioResult :=
  Throw (ErrorObject "areaSqft must be > 0").

End Sample.

(** ** Sample state of the page *)

Module SampleState.

(** The selections a page builds from the stored sample. *)
Definition selections : gmap string JsValue :=
  normalizeSelections Sample.catalog Sample.stored
                      (buildDefaultSelections Sample.catalog).

Definition library : Library.BenchmarkLibrary :=
  {| Library.regions :=
       [ {| Library.id := "north" |}; {| Library.id := "south" |};
         {| Library.id := "west" |} ] |}.

(** Stand-ins for [Number] and [String] on the few texts used below. *)
Definition number (v : string) : option Q :=
  if String.eqb v "5" then Some 5%Q
  else if String.eqb v "2" then Some 2%Q
  else if String.eqb v "-1" then Some (-1)%Q
  else if String.eqb v "20000" then Some 20000%Q
  else None.

Definition numberText (n : Q) : string :=
  if Qeq_bool n 5 then "5"
  else if Qeq_bool n 2 then "2"
  else if Qeq_bool n 20000 then "20000"
  else "NaN".

(** Stand-ins for [JSON.stringify] and [JSON.parse] that know one value. *)
Definition stringify (v : JsValue) : string := "{selections}".

Definition parse (text : string) : option JsValue :=
  if String.eqb text "{selections}" then Some (JsObject selections) else None.

(** A browser that takes every write, and one that takes none. *)
Definition roomy (items : gmap string string) (key value : string) : bool := true.

Definition full (items : gmap string string) (key value : string) : bool := false.

Definition settings : DeltaSettings :=
  {| deltaMediumThr := 2; deltaHighThr := 5;
     deltaSort := category; deltaDriversOnly := true |}.

(** A result for B whose changes for "W" and "X" have the same magnitude. *)
Definition tiedB : Domain.ScenarioResult :=
  {| Domain.totalCost := 1930; Domain.currency := "USD";
     Domain.categories :=
       [ Sample.entry "W" 600 (60#193); Sample.entry "X" 900 (90#193);
         Sample.entry "Y" 220 (22#193); Sample.entry "Z" 210 (21#193) ] |}.

End SampleState.

(** * Properties *)

(** ** Comparisons of numbers *)

Lemma gt_true (x y : Q) : gt x y = true ↔ (y < x)%Q.
Proof.
  unfold gt. rewrite Qgt_alt. destruct (x ?= y)%Q; split; congruence.
Qed.

Lemma gt_false (x y : Q) : gt x y = false ↔ (x <= y)%Q.
Proof.
  unfold gt. rewrite Qle_alt. destruct (x ?= y)%Q; split; congruence.
Qed.

Lemma lt_true (x y : Q) : lt x y = true ↔ (x < y)%Q.
Proof. apply gt_true. Qed.

Lemma lt_false (x y : Q) : lt x y = false ↔ (y <= x)%Q.
Proof. apply gt_false. Qed.

Lemma ge_true (x y : Q) : ge x y = true ↔ (y <= x)%Q.
Proof. apply Qle_bool_iff. Qed.

Lemma ge_false (x y : Q) : ge x y = false ↔ (x < y)%Q.
Proof.
  unfold ge. split; intros H.
  - apply Qnot_le_lt. intros Hle. apply Qle_bool_iff in Hle. congruence.
  - destruct (Qle_bool y x) eqn:E; [|done].
    apply Qle_bool_iff in E. lra.
Qed.

(** ** [map] with a callback that may throw *)

Lemma array_map_Normal {A B : Type} (f : A → Completion B) xs ys :
  array_map f xs = Normal ys → Forall2 (λ x y, f x = Normal y) xs ys.
Proof.
  revert ys. induction xs as [|x xs IH]; intros ys; simpl.
  - intros [= <-]. constructor.
  - destruct (f x) as [y|e] eqn:Hx; simpl; [|done].
    destruct (array_map f xs) as [ys'|e] eqn:Hxs; simpl; [|done].
    intros [= <-]. constructor; auto.
Qed.

Lemma array_map_returns {A B : Type} (f : A → Completion B) xs :
  (∀ x, In x xs → ∃ y, f x = Normal y) → ∃ ys, array_map f xs = Normal ys.
Proof.
  induction xs as [|x xs IH]; intros Hall; simpl.
  - by exists [].
  - destruct (Hall x) as [y ->]; [by left|].
    destruct IH as [ys ->]; [intros; apply Hall; by right|].
    by exists (y :: ys).
Qed.

(** The first element on which the callback throws decides the outcome. *)
Lemma array_map_Throw {A B : Type} (f : A → Completion B) xs x :
  In x xs → (∀ y, f x ≠ Normal y) →
  ∃ x' e, In x' xs ∧ f x' = Throw e ∧ array_map f xs = Throw e.
Proof.
  induction xs as [|x0 xs IH]; intros Hin Hx; [done|]. simpl.
  destruct (f x0) as [y0|e0] eqn:H0.
  - destruct Hin as [->|Hin]; [by destruct (Hx y0)|].
    destruct (IH Hin Hx) as (x' & e & Hin' & Hf & ->).
    exists x', e. simpl. auto.
  - exists x0, e0. simpl. auto.
Qed.

(** ** [Array.prototype.sort] *)

Section SortPermutation.
Context {A : Type} (comparefn : A → A → Q).

Lemma sort_insert_Permutation x l :
  Permutation (sort_insert comparefn x l) (x :: l).
Proof.
  induction l as [|y l IH]; simpl; [done|].
  destruct (gt (comparefn x y) 0); [|done].
  rewrite IH. apply perm_swap.
Qed.

Lemma array_sort_Permutation l : Permutation (array_sort comparefn l) l.
Proof.
  induction l as [|x l IH]; simpl; [done|].
  by rewrite sort_insert_Permutation, IH.
Qed.

Lemma array_sort_In x l : In x (array_sort comparefn l) ↔ In x l.
Proof.
  split; apply Permutation_in; [|symmetry]; apply array_sort_Permutation.
Qed.

Lemma array_sort_length l : length (array_sort comparefn l) = length l.
Proof. apply Permutation_length, array_sort_Permutation. Qed.
End SortPermutation.

Section SortByKey.
Context {A : Type} (comparefn : A → A → Q) (key pos : A → Q).
Hypothesis comparefn_key : ∀ x y, (comparefn x y == key x - key y)%Q.

Lemma behind_iff x y : gt (comparefn x y) 0 = true ↔ (key y < key x)%Q.
Proof. rewrite gt_true, comparefn_key. split; intros; lra. Qed.

Lemma not_behind_iff x y : gt (comparefn x y) 0 = false ↔ (key x <= key y)%Q.
Proof. rewrite gt_false, comparefn_key. split; intros; lra. Qed.

Lemma ranked_before_trans_le x y z :
  (key x <= key y)%Q → (pos x < pos z)%Q → ranked_before key pos y z →
  ranked_before key pos x z.
Proof.
  unfold ranked_before. intros Hxy Hpos [Hlt|[Heq Hp]].
  - left. lra.
  - destruct (Qlt_le_dec (key x) (key z)); [by left|].
    right. split; [lra|done].
Qed.

Lemma sort_insert_ranked x l :
  Forall (λ y, pos x < pos y)%Q l →
  StronglySorted (ranked_before key pos) l →
  StronglySorted (ranked_before key pos) (sort_insert comparefn x l).
Proof.
  induction l as [|y l IH]; intros Hpos Hsorted; simpl.
  - repeat constructor.
  - apply Forall_cons in Hpos as [Hy Hpos].
    apply StronglySorted_inv in Hsorted as [Hl Hyl].
    destruct (gt (comparefn x y) 0) eqn:Hcmp.
    + apply behind_iff in Hcmp.
      constructor; [by apply IH|].
      rewrite List.Forall_forall in *. intros z Hz.
      apply (Permutation_in _ (sort_insert_Permutation _ _ _)) in Hz.
      destruct Hz as [<-|Hz]; [by left|].
      by apply Hyl.
    + apply not_behind_iff in Hcmp.
      constructor; [by constructor|].
      constructor.
      * destruct (Qlt_le_dec (key x) (key y)); [by left|].
        right. split; [lra|done].
      * rewrite List.Forall_forall in *. intros z Hz.
        apply ranked_before_trans_le with y; auto.
Qed.

(** Stability: a list that is in position order is sorted by key, and
    elements with the same key stay in position order. *)
Lemma array_sort_ranked l :
  StronglySorted (λ x y, pos x < pos y)%Q l →
  StronglySorted (ranked_before key pos) (array_sort comparefn l).
Proof.
  induction l as [|x l IH]; intros Hsorted; simpl; [constructor|].
  apply StronglySorted_inv in Hsorted as [Hl Hx].
  apply sort_insert_ranked; [|by apply IH].
  rewrite List.Forall_forall in *. intros y Hy. apply Hx.
  by apply array_sort_In in Hy.
Qed.

(** A list that is already in key order is left as it is. *)
Lemma array_sort_sorted l :
  StronglySorted (λ x y, key x <= key y)%Q l → array_sort comparefn l = l.
Proof.
  induction l as [|x l IH]; intros Hsorted; simpl; [done|].
  apply StronglySorted_inv in Hsorted as [Hl Hx].
  rewrite IH by done.
  destruct l as [|y l]; simpl; [done|].
  apply Forall_cons in Hx as [Hxy _].
  apply not_behind_iff in Hxy. by rewrite Hxy.
Qed.
End SortByKey.

Lemma firstn_In {A : Type} n (l : list A) x : In x (firstn n l) → In x l.
Proof. intros H. rewrite <- (firstn_skipn n l). apply in_or_app. by left. Qed.

Section SortOrder.
Context {A : Type} (comparefn : A → A → Q) (key : A → Q).
Hypothesis comparefn_key : ∀ x y, (comparefn x y == key x - key y)%Q.

Lemma sort_insert_sorted x l :
  StronglySorted (λ x y, key x <= key y)%Q l →
  StronglySorted (λ x y, key x <= key y)%Q (sort_insert comparefn x l).
Proof.
  induction 1 as [|y l Hl IH Hy]; simpl; [repeat constructor|].
  destruct (gt (comparefn x y) 0) eqn:Hcmp.
  - apply (behind_iff comparefn key comparefn_key) in Hcmp.
    constructor; [done|].
    rewrite List.Forall_forall in *. intros z Hz.
    apply (Permutation_in _ (sort_insert_Permutation _ _ _)) in Hz.
    destruct Hz as [<-|Hz]; [lra|by apply Hy].
  - apply (not_behind_iff comparefn key comparefn_key) in Hcmp.
    constructor; [by constructor|].
    constructor; [done|].
    rewrite List.Forall_forall in *. intros z Hz.
    apply Hy in Hz. lra.
Qed.

Lemma array_sort_sorted_by_key l :
  StronglySorted (λ x y, key x <= key y)%Q (array_sort comparefn l).
Proof.
  induction l as [|x l IH]; simpl; [constructor|].
  by apply sort_insert_sorted.
Qed.

Lemma sorted_app_le (l1 l2 : list A) x y :
  StronglySorted (λ x y, key x <= key y)%Q (l1 ++ l2) →
  In x l1 → In y l2 → (key x <= key y)%Q.
Proof.
  induction l1 as [|a l1 IH]; simpl; [done|].
  intros Hsorted Hx Hy. apply StronglySorted_inv in Hsorted as [Hl Ha].
  destruct Hx as [->|Hx]; [|by apply IH].
  rewrite List.Forall_forall in Ha. apply Ha, in_or_app. by right.
Qed.

End SortOrder.

(** ** Ranks in a sorted list *)

Lemma ranked_beforeb_true {A : Type} (key pos : A → Q) x y :
  ranked_beforeb key pos x y = true ↔ ranked_before key pos x y.
Proof.
  unfold ranked_beforeb, ranked_before.
  rewrite orb_true_iff, andb_true_iff, !lt_true, Qeq_bool_iff. tauto.
Qed.

Lemma ranked_before_irrefl {A : Type} (key pos : A → Q) x :
  ¬ ranked_before key pos x x.
Proof. unfold ranked_before. intros [H|[_ H]]; lra. Qed.

Lemma ranked_before_asym {A : Type} (key pos : A → Q) x y :
  ranked_before key pos x y → ¬ ranked_before key pos y x.
Proof. unfold ranked_before. intros [H|[H1 H2]] [H'|[H1' H2']]; lra. Qed.

Lemma filter_length_Permutation {A : Type} (f : A → bool) l l' :
  Permutation l l' → length (List.filter f l) = length (List.filter f l').
Proof.
  induction 1 as [|x l l' _ IH|x y l|l l' l'' _ IH1 _ IH2]; simpl.
  - done.
  - destruct (f x); simpl; lia.
  - destruct (f x), (f y); simpl; lia.
  - lia.
Qed.

Lemma filter_none {A : Type} (f : A → bool) l :
  (∀ x, In x l → f x = false) → List.filter f l = [].
Proof.
  induction l as [|x l IH]; intros H; simpl; [done|].
  rewrite (H x) by (by left). apply IH. intros; apply H; by right.
Qed.

(** In a list sorted by a strict ranking, an element is among the first [n]
    exactly when fewer than [n] elements are ranked before it. *)
Lemma take_rank {A : Type} (R : A → A → Prop) (Rb : A → A → bool) :
  (∀ x y, Rb x y = true ↔ R x y) →
  (∀ x, ¬ R x x) →
  (∀ x y, R x y → ¬ R y x) →
  ∀ l n x, StronglySorted R l → In x l →
    (In x (firstn n l) ↔ length (List.filter (λ y, Rb y x) l) < n).
Proof.
  intros HRb Hirr Hasym l.
  induction l as [|a l IH]; intros n x Hsorted Hin; [done|].
  apply StronglySorted_inv in Hsorted as [Hl Ha].
  rewrite List.Forall_forall in Ha.
  destruct (Rb a x) eqn:Hax.
  - (* [a] is ranked before [x], so [x] is further down *)
    assert (Hx : In x l).
    { destruct Hin as [->|Hin]; [|done].
      apply HRb in Hax. by destruct (Hirr x). }
    assert (Hne : a ≠ x).
    { intros ->. apply HRb in Hax. by destruct (Hirr x). }
    simpl. rewrite Hax. simpl.
    destruct n as [|n]; simpl; [split; [done|lia]|].
    rewrite (IH n x Hl Hx). split; [intros [?|?]; [done|lia]|intros; right; lia].
  - (* nothing is ranked before the head *)
    assert (Hxa : x = a).
    { destruct Hin as [->|Hin]; [done|].
      apply Ha, HRb in Hin. congruence. }
    subst x. simpl. rewrite Hax.
    rewrite filter_none.
    + destruct n; simpl; split; try lia; try done. intros; by left.
    + intros y Hy. apply Ha in Hy.
      destruct (Rb y a) eqn:E; [|done].
      apply HRb in E. by destruct (Hasym _ _ Hy).
Qed.

(** ** The catalog order map *)

Lemma foldl_insert_notin {V : Type} (l : list (string * V)) (m : gmap string V) k :
  ¬ In k (map fst l) →
  foldl (λ m kv, <[kv.1 := kv.2]> m) m l !! k = m !! k.
Proof.
  revert m. induction l as [|[k0 v0] l IH]; intros m Hk; simpl in *; [done|].
  rewrite IH by tauto. apply lookup_insert_ne. tauto.
Qed.

Lemma foldl_insert_lookup {V : Type} (l : list (string * V)) (m : gmap string V) k v :
  NoDup (map fst l) → In (k, v) l →
  foldl (λ m kv, <[kv.1 := kv.2]> m) m l !! k = Some v.
Proof.
  revert m. induction l as [|[k0 v0] l IH]; intros m Hnd Hin; [done|].
  simpl in *. apply NoDup_cons in Hnd as [Hk0 Hnd].
  destruct Hin as [[= -> ->]|Hin].
  - rewrite foldl_insert_notin; [apply lookup_insert_eq|].
    by rewrite <- list_elem_of_In.
  - by apply IH.
Qed.

Lemma imap_keys {A V : Type} (k : A → string) (g : nat → V) (l : list A) :
  map fst (imap (λ idx c, (k c, g idx)) l) = map k l.
Proof.
  revert g. induction l as [|c l IH]; intros g; [done|].
  rewrite imap_cons. simpl. f_equal. apply (IH (g ∘ S)).
Qed.

Lemma order_lookup VMX_CATEGORIES i c :
  NoDup (map Domain.id VMX_CATEGORIES) →
  VMX_CATEGORIES !! i = Some c →
  order VMX_CATEGORIES !! Domain.id c = Some i.
Proof.
  intros Hnd Hi. unfold order. apply foldl_insert_lookup.
  - by rewrite (imap_keys Domain.id (λ idx, idx)).
  - apply list_elem_of_In, elem_of_lookup_imap. eauto.
Qed.

Lemma order_lookup_None VMX_CATEGORIES k :
  ¬ In k (map Domain.id VMX_CATEGORIES) → order VMX_CATEGORIES !! k = None.
Proof.
  intros Hk. unfold order. rewrite foldl_insert_notin; [done|].
  by rewrite (imap_keys Domain.id (λ idx, idx)).
Qed.

Lemma orderOf_lookup VMX_CATEGORIES i c :
  NoDup (map Domain.id VMX_CATEGORIES) →
  VMX_CATEGORIES !! i = Some c →
  orderOf VMX_CATEGORIES (Domain.id c) = inject_Z (Z.of_nat i).
Proof.
  intros Hnd Hi. unfold orderOf. by rewrite (order_lookup _ i c).
Qed.

(** A list whose elements carry their own index is in position order. *)
Lemma indexed_sorted {A : Type} (pos : A → Q) (l : list A) (k : nat) :
  (∀ i x, l !! i = Some x → pos x = inject_Z (Z.of_nat (k + i))) →
  StronglySorted (λ x y, pos x < pos y)%Q l.
Proof.
  revert k. induction l as [|a l IH]; intros k Hpos; constructor.
  - apply (IH (S k)). intros i x Hi.
    rewrite (Hpos (S i) x Hi). do 2 f_equal. lia.
  - apply List.Forall_forall. intros y Hy.
    apply list_elem_of_In, list_elem_of_lookup in Hy as [i Hi].
    rewrite (Hpos 0%nat a eq_refl), (Hpos (S i) y Hi).
    rewrite <- Zlt_Qlt. lia.
Qed.

(** Rows that follow the catalog are in catalog position order. *)
Lemma catalog_rows_sorted VMX_CATEGORIES (l : list DeltaRow) :
  NoDup (map Domain.id VMX_CATEGORIES) →
  map categoryId l = map Domain.id VMX_CATEGORIES →
  StronglySorted (λ x y, catalogPos VMX_CATEGORIES x < catalogPos VMX_CATEGORIES y)%Q l.
Proof.
  intros Hnd Hids. apply (indexed_sorted _ l 0). intros i r Hi. simpl.
  assert (Hid : map categoryId l !! i = Some (categoryId r)).
  { change (map categoryId l) with (categoryId <$> l).
    by rewrite list_lookup_fmap, Hi. }
  rewrite Hids in Hid.
  change (map Domain.id VMX_CATEGORIES) with (Domain.id <$> VMX_CATEGORIES) in Hid.
  rewrite list_lookup_fmap in Hid.
  destruct (VMX_CATEGORIES !! i) as [c|] eqn:Hc; [|done].
  simpl in Hid. injection Hid as Hid. unfold catalogPos. rewrite <- Hid.
  by apply orderOf_lookup.
Qed.

(** ** The rows of a comparison *)

Section DeltaFacts.
Variable VMX_CATEGORIES : list Domain.VmxCategory.
Variable settings : DeltaSettings.

Lemma baseRow_Normal aTotal resultB a r :
  baseRow settings aTotal resultB a = Normal r →
  ∃ b, List.find (λ x, String.eqb (Domain.categoryId x) (Domain.categoryId a))
                 (Domain.categories resultB) = Some b
       ∧ categoryId r = Domain.categoryId a
       ∧ deltaCost r = (Domain.cost b - Domain.cost a)%Q
       ∧ deltaPct r = (Domain.pctOfTotal b - Domain.pctOfTotal a)%Q
       ∧ absFracOfATotal r = (Qabs (deltaCost r) / aTotal)%Q
       ∧ heat r = thresholdHeat settings (absFracOfATotal r)
       ∧ isTopDriver r = false.
Proof.
  unfold baseRow. destruct (List.find _ _) as [b|]; [|done].
  intros [= <-]. exists b. simpl. auto 10.
Qed.

Lemma baseRow_Throw aTotal resultB a e :
  baseRow settings aTotal resultB a = Throw e →
  e = ErrorObject ("Missing category in Scenario B: " +:+ Domain.categoryId a)
  ∧ ∀ b, In b (Domain.categories resultB) →
         Domain.categoryId b ≠ Domain.categoryId a.
Proof.
  unfold baseRow. destruct (List.find _ _) as [b|] eqn:Hfind; [done|].
  intros [= <-]. split; [done|]. intros b Hb Heq.
  apply (find_none _ _ Hfind) in Hb. simpl in Hb.
  apply String.eqb_neq in Hb. done.
Qed.

Lemma baseRow_returns aTotal resultB a b :
  In b (Domain.categories resultB) →
  Domain.categoryId b = Domain.categoryId a →
  ∃ r, baseRow settings aTotal resultB a = Normal r.
Proof.
  intros Hb Hid. unfold baseRow.
  destruct (List.find _ _) as [b'|] eqn:Hfind; [eauto|].
  apply (find_none _ _ Hfind) in Hb. simpl in Hb.
  apply String.eqb_neq in Hb. done.
Qed.

Lemma baseRows_rows resultA resultB base :
  baseRows settings resultA resultB = Normal base →
  Forall2 (λ a r, baseRow settings (aTotalDivisor resultA) resultB a = Normal r)
          (Domain.categories resultA) base.
Proof. apply array_map_Normal. Qed.

Lemma baseRows_ids resultA resultB base :
  baseRows settings resultA resultB = Normal base →
  map categoryId base = map Domain.categoryId (Domain.categories resultA).
Proof.
  intros H. apply baseRows_rows in H.
  induction H as [|a r l l' Hr _ IH]; simpl; [done|].
  apply baseRow_Normal in Hr as (b & _ & -> & _). by rewrite IH.
Qed.

Lemma baseRows_In resultA resultB base r :
  baseRows settings resultA resultB = Normal base → In r base →
  ∃ a, In a (Domain.categories resultA)
       ∧ baseRow settings (aTotalDivisor resultA) resultB a = Normal r.
Proof.
  intros H. apply baseRows_rows in H.
  induction H as [|a r' l l' Hr _ IH]; simpl; [done|].
  intros [<-|Hin]; [eauto|].
  destruct (IH Hin) as (a' & ? & ?). eauto.
Qed.

Lemma baseRows_returns resultA resultB :
  (∀ a, In a (Domain.categories resultA) →
        In (Domain.categoryId a) (map Domain.categoryId (Domain.categories resultB))) →
  ∃ base, baseRows settings resultA resultB = Normal base.
Proof.
  intros Hall. apply array_map_returns. intros a Ha.
  apply Hall, in_map_iff in Ha as (b & Hid & Hb).
  by apply baseRow_returns with b.
Qed.

Lemma markedRows_In base r :
  In r (markedRows base) ↔ ∃ r0, In r0 base ∧ r = markRow (topSet base) r0.
Proof.
  unfold markedRows. rewrite in_map_iff. split; intros (r0 & ? & ?); eauto.
Qed.

Lemma markedRows_ids base : map categoryId (markedRows base) = map categoryId base.
Proof. unfold markedRows. rewrite map_map. done. Qed.

Lemma sortRows_Permutation l : Permutation (sortRows VMX_CATEGORIES settings l) l.
Proof. unfold sortRows. destruct (deltaSort settings); apply array_sort_Permutation. Qed.

Lemma shownRows_In l r : In r (shownRows settings l) → In r l.
Proof.
  unfold shownRows. destruct (deltaDriversOnly settings); [|done].
  rewrite filter_In. tauto.
Qed.

Lemma delta_Normal resultA resultB rep :
  delta VMX_CATEGORIES settings true (Some resultA) (Some resultB) = Normal (Some rep) →
  ∃ base,
    baseRows settings resultA resultB = Normal base
    ∧ rows rep = shownRows settings (sortRows VMX_CATEGORIES settings (markedRows base))
    ∧ increases rep = largestIncreases (rows rep)
    ∧ decreases rep = largestDecreases (rows rep)
    ∧ totalDelta rep = (Domain.totalCost resultB - Domain.totalCost resultA)%Q.
Proof.
  unfold delta. destruct (baseRows _ _ _) as [base|]; simpl; [|done].
  intros [= <-]. exists base. simpl. auto.
Qed.

Lemma delta_returns resultA resultB base :
  baseRows settings resultA resultB = Normal base →
  ∃ rep, delta VMX_CATEGORIES settings true (Some resultA) (Some resultB)
         = Normal (Some rep).
Proof. intros H. unfold delta. rewrite H. simpl. eauto. Qed.

Lemma rows_In_marked base l r :
  l = shownRows settings (sortRows VMX_CATEGORIES settings (markedRows base)) →
  In r l → In r (markedRows base).
Proof.
  intros -> Hin. apply shownRows_In in Hin.
  by apply (Permutation_in _ (sortRows_Permutation _)) in Hin.
Qed.

(** What every row of a report is made of. *)
Lemma report_row resultA resultB rep r :
  delta VMX_CATEGORIES settings true (Some resultA) (Some resultB) = Normal (Some rep) →
  In r (rows rep) →
  ∃ base r0 a,
    baseRows settings resultA resultB = Normal base
    ∧ In r (markedRows base) ∧ In r0 base ∧ r = markRow (topSet base) r0
    ∧ In a (Domain.categories resultA)
    ∧ baseRow settings (aTotalDivisor resultA) resultB a = Normal r0.
Proof.
  intros Hrep Hin.
  apply delta_Normal in Hrep as (base & Hbase & Hrows & _).
  apply (rows_In_marked base) in Hin; [|done].
  pose proof Hin as Hin'.
  apply markedRows_In in Hin as (r0 & Hr0 & ->).
  destruct (baseRows_In _ _ _ _ Hbase Hr0) as (a & Ha & Hrow).
  exists base, r0, a. auto 10.
Qed.
End DeltaFacts.

(** ** The impact fraction and the heat of a row *)

Lemma aTotalDivisor_pos resultA : (0 < aTotalDivisor resultA)%Q.
Proof.
  unfold aTotalDivisor. destruct (gt _ 0) eqn:E; [by apply gt_true in E|lra].
Qed.

Lemma report_row_fraction VMX_CATEGORIES settings resultA resultB rep r :
  delta VMX_CATEGORIES settings true (Some resultA) (Some resultB) = Normal (Some rep) →
  In r (rows rep) →
  absFracOfATotal r = (Qabs (deltaCost r) / aTotalDivisor resultA)%Q.
Proof.
  intros Hrep Hin.
  destruct (report_row _ _ _ _ _ _ Hrep Hin)
    as (base & r0 & a & _ & _ & _ & -> & _ & Hrow).
  apply baseRow_Normal in Hrow as (b & _ & _ & _ & _ & Hfrac & _). done.
Qed.

Lemma report_row_fraction_nonneg VMX_CATEGORIES settings resultA resultB rep r :
  delta VMX_CATEGORIES settings true (Some resultA) (Some resultB) = Normal (Some rep) →
  In r (rows rep) → (0 <= absFracOfATotal r)%Q.
Proof.
  intros Hrep Hin. rewrite (report_row_fraction _ _ _ _ _ _ Hrep Hin).
  apply Qle_shift_div_l; [apply aTotalDivisor_pos|].
  rewrite Qmult_0_l. apply Qabs_nonneg.
Qed.

Lemma report_row_heat VMX_CATEGORIES settings resultA resultB rep r :
  delta VMX_CATEGORIES settings true (Some resultA) (Some resultB) = Normal (Some rep) →
  In r (rows rep) →
  heat r =
    if isTopDriver r && heat_is_low (thresholdHeat settings (absFracOfATotal r))
       && gt (absFracOfATotal r) 0
    then medium else thresholdHeat settings (absFracOfATotal r).
Proof.
  intros Hrep Hin.
  destruct (report_row _ _ _ _ _ _ Hrep Hin)
    as (base & r0 & a & _ & _ & _ & -> & _ & Hrow).
  apply baseRow_Normal in Hrow as (b & _ & _ & _ & _ & _ & Hheat & _).
  simpl. by rewrite Hheat.
Qed.

Lemma thresholdHeat_high settings f :
  thresholdHeat settings f = high ↔ (deltaHighThr settings <= f)%Q.
Proof.
  unfold thresholdHeat.
  destruct (ge f (deltaHighThr settings)) eqn:Hh.
  - apply ge_true in Hh. tauto.
  - apply ge_false in Hh.
    destruct (ge f (deltaMediumThr settings)); split; (done || lra).
Qed.

Lemma thresholdHeat_medium settings f :
  thresholdHeat settings f = medium
  ↔ (deltaMediumThr settings <= f ∧ f < deltaHighThr settings)%Q.
Proof.
  unfold thresholdHeat.
  destruct (ge f (deltaHighThr settings)) eqn:Hh.
  - apply ge_true in Hh. split; [done|lra].
  - apply ge_false in Hh.
    destruct (ge f (deltaMediumThr settings)) eqn:Hm.
    + apply ge_true in Hm. tauto.
    + apply ge_false in Hm. split; [done|lra].
Qed.

Lemma thresholdHeat_low settings f :
  thresholdHeat settings f = low
  ↔ ¬ (deltaHighThr settings <= f)%Q
    ∧ ¬ (deltaMediumThr settings <= f ∧ f < deltaHighThr settings)%Q.
Proof.
  rewrite <- thresholdHeat_high, <- thresholdHeat_medium.
  destruct (thresholdHeat settings f); split; try done; intros [? ?]; done.
Qed.

(** C2, as amended: the impact fraction of every row is [|deltaCost|] divided
    by the total of scenario A when that total is positive and by 1
    otherwise; this is [max(totalCost, 1)] whenever the total is at least 1
    or not positive. *)
Theorem impact_fraction_divisor VMX_CATEGORIES settings resultA resultB rep r :
  delta VMX_CATEGORIES settings true (Some resultA) (Some resultB) = Normal (Some rep) →
  In r (rows rep) →
  ((0 < Domain.totalCost resultA)%Q →
     absFracOfATotal r == Qabs (deltaCost r) / Domain.totalCost resultA)
  ∧ ((Domain.totalCost resultA <= 0)%Q →
     absFracOfATotal r == Qabs (deltaCost r) / 1)
  ∧ ((1 <= Domain.totalCost resultA ∨ Domain.totalCost resultA <= 0)%Q →
     absFracOfATotal r == Qabs (deltaCost r) / Qmax (Domain.totalCost resultA) 1).
Proof.
  intros Hrep Hin. rewrite (report_row_fraction _ _ _ _ _ _ Hrep Hin).
  unfold aTotalDivisor.
  destruct (gt (Domain.totalCost resultA) 0) eqn:Hpos.
  - apply gt_true in Hpos.
    split; [done|]. split; [intros; lra|].
    intros [Hge|Hle]; [|lra]. by rewrite Q.max_l.
  - apply gt_false in Hpos.
    split; [intros; lra|]. split; [done|].
    intros [Hge|Hle]; [lra|]. rewrite Q.max_r; [done|lra].
Qed.

Lemma impact_fraction_divisor_witness :
  let rep := Sample.reportOf (Sample.settingsWith impact false)
                             Sample.scenarioA Sample.scenarioB in
  let r := Sample.rowAt rep 0 in
  ((0 < Domain.totalCost Sample.scenarioA)%Q →
     absFracOfATotal r == Qabs (deltaCost r) / Domain.totalCost Sample.scenarioA)
  ∧ ((Domain.totalCost Sample.scenarioA <= 0)%Q →
     absFracOfATotal r == Qabs (deltaCost r) / 1)
  ∧ ((1 <= Domain.totalCost Sample.scenarioA ∨ Domain.totalCost Sample.scenarioA <= 0)%Q →
     absFracOfATotal r
     == Qabs (deltaCost r) / Qmax (Domain.totalCost Sample.scenarioA) 1).
Proof.
  apply (impact_fraction_divisor Sample.catalog (Sample.settingsWith impact false)
           Sample.scenarioA Sample.scenarioB
           (Sample.reportOf (Sample.settingsWith impact false)
                            Sample.scenarioA Sample.scenarioB)).
  - vm_compute. reflexivity.
  - vm_compute. left. reflexivity.
Defined.

(** C2, as stated, fails: with a total of 1/2 for scenario A the divisor is
    1/2 and not [max(1/2, 1) = 1]. *)
Lemma impact_fraction_small_total :
  ∃ rep r,
    delta Sample.catalog (Sample.settingsWith impact false) true
          (Some Sample.smallA) (Some Sample.smallB) = Normal (Some rep)
    ∧ In r (rows rep)
    ∧ (Domain.totalCost Sample.smallA < 1)%Q
    ∧ ¬ (absFracOfATotal r
         == Qabs (deltaCost r) / Qmax (Domain.totalCost Sample.smallA) 1).
Proof.
  eexists. eexists. split; [vm_compute; reflexivity|].
  split; [left; reflexivity|].
  split; [reflexivity|].
  vm_compute. discriminate.
Qed.

(** C3: a row that is not a top driver has heat [high] exactly when its
    impact fraction reaches the high threshold, [medium] exactly when it
    lies between the medium threshold and the high one, and [low]
    otherwise.  No assumption on the two thresholds is needed. *)
Theorem heat_of_non_driver VMX_CATEGORIES settings resultA resultB rep r :
  delta VMX_CATEGORIES settings true (Some resultA) (Some resultB) = Normal (Some rep) →
  In r (rows rep) →
  isTopDriver r = false →
  (heat r = high ↔ (deltaHighThr settings <= absFracOfATotal r)%Q)
  ∧ (heat r = medium
     ↔ (deltaMediumThr settings <= absFracOfATotal r
        ∧ absFracOfATotal r < deltaHighThr settings)%Q)
  ∧ (heat r = low
     ↔ ¬ (deltaHighThr settings <= absFracOfATotal r)%Q
       ∧ ¬ (deltaMediumThr settings <= absFracOfATotal r
            ∧ absFracOfATotal r < deltaHighThr settings)%Q).
Proof.
  intros Hrep Hin Hnot.
  rewrite (report_row_heat _ _ _ _ _ _ Hrep Hin), Hnot. simpl.
  split; [apply thresholdHeat_high|].
  split; [apply thresholdHeat_medium|apply thresholdHeat_low].
Qed.

Lemma heat_of_non_driver_witness :
  let settings := Sample.settingsWith impact false in
  let r := Sample.rowAt (Sample.reportOf settings Sample.scenarioA Sample.scenarioB) 3 in
  (heat r = high ↔ (deltaHighThr settings <= absFracOfATotal r)%Q)
  ∧ (heat r = medium
     ↔ (deltaMediumThr settings <= absFracOfATotal r
        ∧ absFracOfATotal r < deltaHighThr settings)%Q)
  ∧ (heat r = low
     ↔ ¬ (deltaHighThr settings <= absFracOfATotal r)%Q
       ∧ ¬ (deltaMediumThr settings <= absFracOfATotal r
            ∧ absFracOfATotal r < deltaHighThr settings)%Q).
Proof.
  apply (heat_of_non_driver Sample.catalog (Sample.settingsWith impact false)
           Sample.scenarioA Sample.scenarioB
           (Sample.reportOf (Sample.settingsWith impact false)
                            Sample.scenarioA Sample.scenarioB)).
  - vm_compute. reflexivity.
  - vm_compute. do 3 right. left. reflexivity.
  - vm_compute. reflexivity.
Defined.

(** C5: a top driver whose threshold classification is [low] and whose
    impact fraction is not zero gets heat [medium]; every other row keeps
    its threshold classification; no row ends with a lower heat than its
    threshold classification. *)
Theorem heat_upgrade VMX_CATEGORIES settings resultA resultB rep r :
  delta VMX_CATEGORIES settings true (Some resultA) (Some resultB) = Normal (Some rep) →
  In r (rows rep) →
  let initial := thresholdHeat settings (absFracOfATotal r) in
  (isTopDriver r = true → initial = low → ¬ absFracOfATotal r == 0 →
     heat r = medium)
  ∧ (¬ (isTopDriver r = true ∧ initial = low ∧ ¬ absFracOfATotal r == 0) →
     heat r = initial)
  ∧ heat_le initial (heat r).
Proof.
  intros Hrep Hin initial.
  pose proof (report_row_fraction_nonneg _ _ _ _ _ _ Hrep Hin) as Hnonneg.
  rewrite (report_row_heat _ _ _ _ _ _ Hrep Hin). fold initial.
  destruct (isTopDriver r), initial eqn:Hinit; simpl;
    try (split; [done|]; split; [done|]; done).
  destruct (gt (absFracOfATotal r) 0) eqn:Hgt.
  - apply gt_true in Hgt. split; [done|]. split; [|done].
    intros Hno. destruct Hno. split; [done|]. split; [done|]. lra.
  - apply gt_false in Hgt. split; [|done].
    intros _ _ Hne. destruct Hne. lra.
Qed.

Lemma heat_upgrade_witness :
  let r := Sample.rowAt (Sample.reportOf Sample.coarseSettings
                                         Sample.scenarioA Sample.scenarioB) 0 in
  let initial := thresholdHeat Sample.coarseSettings (absFracOfATotal r) in
  (isTopDriver r = true ∧ initial = low ∧ ¬ absFracOfATotal r == 0)
  ∧ (isTopDriver r = true → initial = low → ¬ absFracOfATotal r == 0 →
       heat r = medium)
  ∧ (¬ (isTopDriver r = true ∧ initial = low ∧ ¬ absFracOfATotal r == 0) →
       heat r = initial)
  ∧ heat_le initial (heat r).
Proof.
  split.
  - vm_compute. split; [done|]. split; [done|]. discriminate.
  - apply (heat_upgrade Sample.catalog Sample.coarseSettings
             Sample.scenarioA Sample.scenarioB
             (Sample.reportOf Sample.coarseSettings Sample.scenarioA Sample.scenarioB)).
    + vm_compute. reflexivity.
    + vm_compute. left. reflexivity.
Defined.

(** ** A category missing from scenario B *)

(** C8: when scenario B has no entry for a category of scenario A, the
    comparison throws an error whose message names a category that B lacks
    (the first one in the order of A); no report is produced. *)
Theorem missing_category_throws VMX_CATEGORIES settings resultA resultB a :
  In a (Domain.categories resultA) →
  (∀ b, In b (Domain.categories resultB) →
        Domain.categoryId b ≠ Domain.categoryId a) →
  ∃ missing,
    In missing (Domain.categories resultA)
    ∧ (∀ b, In b (Domain.categories resultB) →
            Domain.categoryId b ≠ Domain.categoryId missing)
    ∧ delta VMX_CATEGORIES settings true (Some resultA) (Some resultB)
      = Throw (ErrorObject ("Missing category in Scenario B: "
                            +:+ Domain.categoryId missing))
    ∧ ∀ rep, delta VMX_CATEGORIES settings true (Some resultA) (Some resultB)
             ≠ Normal rep.
Proof.
  intros Ha Hmissing.
  destruct (array_map_Throw (baseRow settings (aTotalDivisor resultA) resultB)
              (Domain.categories resultA) a Ha) as (a' & e & Ha' & Hthrow & Hmap).
  { intros r Hr. apply baseRow_Normal in Hr as (b & Hfind & _).
    apply find_some in Hfind as [Hb Heq].
    apply String.eqb_eq in Heq. by apply (Hmissing b). }
  apply baseRow_Throw in Hthrow as [-> Hnone].
  exists a'. split; [done|]. split; [done|].
  unfold delta, baseRows. rewrite Hmap. simpl. split; [done|]. congruence.
Qed.

Lemma missing_category_throws_witness :
  ∃ missing,
    In missing (Domain.categories Sample.scenarioA)
    ∧ (∀ b, In b (Domain.categories Sample.lackingB) →
            Domain.categoryId b ≠ Domain.categoryId missing)
    ∧ delta Sample.catalog (Sample.settingsWith impact false) true
            (Some Sample.scenarioA) (Some Sample.lackingB)
      = Throw (ErrorObject ("Missing category in Scenario B: "
                            +:+ Domain.categoryId missing))
    ∧ ∀ rep, delta Sample.catalog (Sample.settingsWith impact false) true
                   (Some Sample.scenarioA) (Some Sample.lackingB)
             ≠ Normal rep.
Proof.
  apply (missing_category_throws Sample.catalog (Sample.settingsWith impact false)
           Sample.scenarioA Sample.lackingB (Sample.entry "Y" 300 (3#20))).
  - simpl. do 2 right. left. reflexivity.
  - simpl. intros b [<-|[<-|[<-|[]]]]; simpl; discriminate.
Defined.

(** ** The evaluation error boundary *)

(** C9: a result returned by [computeScenarioResult] is handed on whole
    with a null error; a thrown [Error] gives a null result and the error's
    message (a thrown value that is no [Error] gives the text "Unknown
    error"); in every outcome exactly one of [result] and [error] is not
    null. *)
Theorem computeSafe_boundary {BenchmarkSet ScenarioSelection : Type}
    (computeScenarioResult :
       Q → BenchmarkSet → list ScenarioSelection → Completion Domain.ScenarioResult)
    areaSqft benchmark selections :
  let outcome := computeScenarioResult areaSqft benchmark selections in
  let computed := computeSafe computeScenarioResult areaSqft benchmark selections in
  (∀ r, outcome = Normal r → computed = {| result := Some r; error := None |})
  ∧ (∀ message, outcome = Throw (ErrorObject message) →
       computed = {| result := None; error := Some message |})
  ∧ (outcome = Throw NonErrorValue →
       computed = {| result := None; error := Some "Unknown error" |})
  ∧ ((result computed ≠ None ∧ error computed = None)
     ∨ (result computed = None ∧ error computed ≠ None)).
Proof.
  intros outcome computed. unfold computed, computeSafe. fold outcome.
  destruct outcome as [r|[message|]]; simpl.
  - split; [by intros ? [= <-]|]. split; [done|]. split; [done|]. by left.
  - split; [done|]. split; [by intros ? [= <-]|]. split; [done|]. by right.
  - split; [done|]. split; [done|]. split; [done|]. by right.
Qed.

(** ** Stored selections *)

(** A loop that stores [g k] under the key [k] of each element that passes
    [p]. *)
Lemma foldl_insert_if {V : Type} (p : string → bool) (g : string → V)
    (l : list Domain.VmxCategory) (m : gmap string V) (k : string) :
  foldl (λ out c, if p (Domain.id c) then <[Domain.id c := g (Domain.id c)]> out else out)
        m l !! k
  = if bool_decide (k ∈ map Domain.id l) && p k then Some (g k) else m !! k.
Proof.
  revert m. induction l as [|c l IH]; intros m; simpl; [done|].
  rewrite IH.
  destruct (bool_decide (k ∈ map Domain.id l)) eqn:Hl.
  - apply bool_decide_eq_true in Hl.
    rewrite (bool_decide_eq_true_2 (k ∈ Domain.id c :: map Domain.id l))
      by (by right).
    simpl. destruct (p k) eqn:Hp; [done|].
    destruct (p (Domain.id c)) eqn:Hpc; [|done].
    rewrite lookup_insert_ne; [done|]. congruence.
  - apply bool_decide_eq_false in Hl. simpl.
    destruct (decide (Domain.id c = k)) as [Heq|Hne].
    + rewrite (bool_decide_eq_true_2 (k ∈ Domain.id c :: map Domain.id l))
        by (rewrite Heq; by left).
      simpl. rewrite Heq. destruct (p k); [|done].
      by rewrite lookup_insert_eq.
    + rewrite (bool_decide_eq_false_2 (k ∈ Domain.id c :: map Domain.id l)).
      * simpl. destruct (p (Domain.id c)); [|done]. by rewrite lookup_insert_ne.
      * rewrite elem_of_cons. intros [?|?]; congruence.
Qed.

Lemma buildDefaultSelections_lookup VMX_CATEGORIES k :
  buildDefaultSelections VMX_CATEGORIES !! k
  = if bool_decide (k ∈ map Domain.id VMX_CATEGORIES)
    then Some (selection k "MEDIUM") else None.
Proof.
  unfold buildDefaultSelections.
  rewrite (foldl_insert_if (λ _, true) (λ k, selection k "MEDIUM")).
  by rewrite andb_true_r.
Qed.

Lemma normalizeSelections_lookup VMX_CATEGORIES input fallback k :
  normalizeSelections VMX_CATEGORIES input fallback !! k
  = if bool_decide (k ∈ map Domain.id VMX_CATEGORIES) && acceptable (get input k) k
    then Some (get input k) else fallback !! k.
Proof.
  unfold normalizeSelections.
  destruct (negb (truthy input) || negb (String.eqb (typeof input) "object")) eqn:Hin.
  - assert (Hget : get input k = JsUndefined) by (by destruct input).
    rewrite Hget. unfold acceptable. simpl. by rewrite andb_false_r.
  - apply (foldl_insert_if (λ k, acceptable (get input k) k) (λ k, get input k)).
Qed.

Lemma strict_eq_string_true v s : strict_eq_string v s = true → v = JsString s.
Proof.
  destruct v; simpl; try done. intros H. apply String.eqb_eq in H. by subst.
Qed.

Lemma acceptable_wellFormed maybe k :
  acceptable maybe k = true → wellFormedSelection k maybe.
Proof.
  unfold acceptable. rewrite !andb_true_iff, !orb_true_iff.
  intros [[[Htruthy Htype] Hband] Hid].
  destruct maybe as [| | | | | |props]; try done.
  apply strict_eq_string_true in Hid. simpl in Hid, Hband.
  assert (Hc : props !! "categoryId" = Some (JsString k)).
  { destruct (props !! "categoryId"); simpl in Hid; congruence. }
  assert (Hb : ∃ band, props !! "band" = Some (JsString band)
                       ∧ (band = "LOW" ∨ band = "MEDIUM" ∨ band = "HIGH")).
  { destruct Hband as [[H|H]|H]; apply strict_eq_string_true in H;
      (destruct (props !! "band"); simpl in H; [|done]); subst; eauto 10. }
  destruct Hb as (band & Hb & Hcase). by exists props, band.
Qed.

Lemma wellFormed_acceptable maybe k :
  wellFormedSelection k maybe → acceptable maybe k = true.
Proof.
  intros (props & band & -> & Hid & Hband & Hcase).
  unfold acceptable. simpl. rewrite Hid, Hband. simpl.
  rewrite String.eqb_refl, andb_true_r.
  destruct Hcase as [Hb|[Hb|Hb]]; subst band; reflexivity.
Qed.

Lemma selection_wellFormed k : wellFormedSelection k (selection k "MEDIUM").
Proof.
  eexists _, "MEDIUM". split; [reflexivity|].
  split; [apply lookup_insert_eq|]. split; [|auto].
  rewrite lookup_insert_ne by done. apply lookup_insert_eq.
Qed.

(** C10: for every input, [normalizeSelections] over the default selections
    returns a record whose keys are exactly the catalog ids; under each id
    it holds the stored entry when that entry is an object with one of the
    three bands and with the id as its [categoryId], and the default
    selection otherwise; so every entry is a well-formed selection for its
    key.  The test the loop applies to a stored entry is exactly
    well-formedness for the key. *)
Theorem normalizeSelections_complete VMX_CATEGORIES (input : JsValue) :
  let out := normalizeSelections VMX_CATEGORIES input
                                 (buildDefaultSelections VMX_CATEGORIES) in
  (∀ k, is_Some (out !! k) ↔ In k (map Domain.id VMX_CATEGORIES))
  ∧ (∀ c, In c VMX_CATEGORIES →
       out !! Domain.id c
       = Some (if acceptable (get input (Domain.id c)) (Domain.id c)
               then get input (Domain.id c)
               else selection (Domain.id c) "MEDIUM"))
  ∧ (∀ k v, out !! k = Some v → wellFormedSelection k v)
  ∧ (∀ k v, acceptable v k = true ↔ wellFormedSelection k v).
Proof.
  intros out.
  assert (Hout : ∀ k, out !! k
            = if bool_decide (k ∈ map Domain.id VMX_CATEGORIES)
              then Some (if acceptable (get input k) k then get input k
                         else selection k "MEDIUM")
              else None).
  { intros k. unfold out.
    rewrite normalizeSelections_lookup, buildDefaultSelections_lookup.
    destruct (bool_decide _), (acceptable _ _); done. }
  split; [|split; [|split]];
    [| | |split; [apply acceptable_wellFormed|apply wellFormed_acceptable]].
  - intros k. rewrite Hout, <- list_elem_of_In.
    destruct (bool_decide _) eqn:Hk.
    + apply bool_decide_eq_true in Hk. split; [done|eauto].
    + apply bool_decide_eq_false in Hk. split; [by intros [? ?]|done].
  - intros c Hc. rewrite Hout, bool_decide_eq_true_2; [done|].
    apply list_elem_of_In, in_map, Hc.
  - intros k v. rewrite Hout. destruct (bool_decide _); [|done].
    intros [= <-]. destruct (acceptable _ _) eqn:Hacc.
    + by apply acceptable_wellFormed.
    + apply selection_wellFormed.
Qed.

(** ** Swapping the two scenarios *)

Lemma NoDup_map_inj {A B : Type} (f : A → B) (l : list A) x y :
  NoDup (map f l) → In x l → In y l → f x = f y → x = y.
Proof.
  induction l as [|a l IH]; simpl; [done|].
  rewrite NoDup_cons, list_elem_of_In. intros [Ha Hnd] [Hx|Hx] [Hy|Hy] Heq.
  - congruence.
  - destruct Ha. rewrite Hx, Heq. by apply in_map.
  - destruct Ha. rewrite Hy, <- Heq. by apply in_map.
  - by apply IH.
Qed.

Lemma find_by_id (l : list Domain.CategoryCost) a b :
  NoDup (map Domain.categoryId l) →
  List.find (λ x, String.eqb (Domain.categoryId x) (Domain.categoryId a)) l = Some b →
  ∀ b', In b' l → Domain.categoryId b' = Domain.categoryId a → b' = b.
Proof.
  intros Hnd Hfind b' Hb' Hid.
  apply find_some in Hfind as [Hb Heq]. apply String.eqb_eq in Heq.
  apply (NoDup_map_inj Domain.categoryId l); congruence.
Qed.

Lemma report_has_every_category VMX_CATEGORIES settings resultA resultB rep :
  delta VMX_CATEGORIES settings true (Some resultA) (Some resultB) = Normal (Some rep) →
  deltaDriversOnly settings = false →
  ∀ a, In a (Domain.categories resultA) →
       ∃ r, In r (rows rep) ∧ categoryId r = Domain.categoryId a.
Proof.
  intros Hrep Hall a Ha.
  apply delta_Normal in Hrep as (base & Hbase & Hrows & _).
  unfold shownRows in Hrows. rewrite Hall in Hrows.
  assert (Hid : In (Domain.categoryId a) (map categoryId (rows rep))).
  { rewrite Hrows.
    apply (Permutation_in _
             (Permutation_sym (Permutation_map categoryId (sortRows_Permutation _ _ _)))).
    rewrite markedRows_ids, (baseRows_ids _ _ _ _ Hbase). by apply in_map. }
  apply in_map_iff in Hid as (r & ? & ?). eauto.
Qed.

(** C7: for two results over the same catalog both comparisons return a
    report; the rows of a category in [compare(A,B)] and in [compare(B,A)]
    have opposite [deltaCost] and opposite [deltaPct], and [totalDelta] is
    negated too.  Without the drivers-only filter every category has its row
    in both reports. *)
Theorem delta_antisymmetric VMX_CATEGORIES settings settings' resultA resultB :
  NoDup (map Domain.id VMX_CATEGORIES) →
  fromCatalog VMX_CATEGORIES resultA →
  fromCatalog VMX_CATEGORIES resultB →
  ∃ repAB repBA,
    delta VMX_CATEGORIES settings true (Some resultA) (Some resultB)
      = Normal (Some repAB)
    ∧ delta VMX_CATEGORIES settings' true (Some resultB) (Some resultA)
      = Normal (Some repBA)
    ∧ totalDelta repAB == - totalDelta repBA
    ∧ (∀ r r', In r (rows repAB) → In r' (rows repBA) →
         categoryId r = categoryId r' →
         deltaCost r == - deltaCost r' ∧ deltaPct r == - deltaPct r')
    ∧ (deltaDriversOnly settings = false → deltaDriversOnly settings' = false →
       ∀ c, In c VMX_CATEGORIES →
         ∃ r r', In r (rows repAB) ∧ In r' (rows repBA)
                 ∧ categoryId r = Domain.id c ∧ categoryId r' = Domain.id c).
Proof.
  unfold fromCatalog. intros Hnd HA HB.
  destruct (baseRows_returns settings resultA resultB) as [baseAB HbaseAB].
  { intros a Ha. rewrite HB, <- HA. by apply in_map. }
  destruct (baseRows_returns settings' resultB resultA) as [baseBA HbaseBA].
  { intros b Hb. rewrite HA, <- HB. by apply in_map. }
  destruct (delta_returns VMX_CATEGORIES _ _ _ _ HbaseAB) as [repAB HAB].
  destruct (delta_returns VMX_CATEGORIES _ _ _ _ HbaseBA) as [repBA HBA].
  exists repAB, repBA. split; [done|]. split; [done|].
  split; [|split].
  - apply delta_Normal in HAB as (base & _ & _ & _ & _ & ->).
    apply delta_Normal in HBA as (base' & _ & _ & _ & _ & ->). ring.
  - intros r r' Hr Hr' Hid.
    destruct (report_row _ _ _ _ _ _ HAB Hr)
      as (base & r0 & a & _ & _ & _ & -> & Ha & Hrow).
    destruct (report_row _ _ _ _ _ _ HBA Hr')
      as (base' & r0' & b' & _ & _ & _ & -> & Hb' & Hrow').
    apply baseRow_Normal in Hrow as (b & Hb & Hida & Hcost & Hpct & _).
    apply baseRow_Normal in Hrow' as (a' & Ha' & Hidb' & Hcost' & Hpct' & _).
    simpl in Hid |- *. rewrite Hida, Hidb' in Hid.
    assert (b' = b) as ->.
    { apply (find_by_id (Domain.categories resultB) a); [by rewrite HB|done..]. }
    assert (a = a') as ->.
    { apply (find_by_id (Domain.categories resultA) b); [by rewrite HA|done..]. }
    rewrite Hcost, Hcost', Hpct, Hpct'. split; ring.
  - intros Hall Hall' c Hc.
    assert (Hin : In (Domain.id c) (map Domain.id VMX_CATEGORIES)) by by apply in_map.
    pose proof Hin as Hin'.
    rewrite <- HA in Hin. rewrite <- HB in Hin'.
    apply in_map_iff in Hin as (a & Hida & Ha).
    apply in_map_iff in Hin' as (b & Hidb & Hb).
    destruct (report_has_every_category _ _ _ _ _ HAB Hall a Ha) as (r & ? & ?).
    destruct (report_has_every_category _ _ _ _ _ HBA Hall' b Hb) as (r' & ? & ?).
    exists r, r'. repeat split; congruence.
Qed.

(** ** The order of the rows *)

Lemma StronglySorted_weaken {A : Type} (R R' : A → A → Prop) l :
  (∀ x y, R x y → R' x y) → StronglySorted R l → StronglySorted R' l.
Proof.
  intros HR. induction 1 as [|x l _ IH Hx]; constructor; [done|].
  eapply List.Forall_impl; [|exact Hx]. apply HR.
Qed.

Lemma StronglySorted_filter {A : Type} (R : A → A → Prop) (p : A → bool) l :
  StronglySorted R l → StronglySorted R (List.filter p l).
Proof.
  induction 1 as [|x l _ IH Hx]; simpl; [constructor|].
  destruct (p x); [|done]. constructor; [done|].
  rewrite List.Forall_forall in *. intros y Hy.
  apply filter_In in Hy as [Hy _]. by apply Hx.
Qed.

Lemma shownRows_sorted settings (R : DeltaRow → DeltaRow → Prop) l :
  StronglySorted R l → StronglySorted R (shownRows settings l).
Proof.
  unfold shownRows. destruct (deltaDriversOnly settings); [|done].
  apply StronglySorted_filter.
Qed.

Lemma ranked_impactOrdered VMX_CATEGORIES r1 r2 :
  ranked_before impactKey (catalogPos VMX_CATEGORIES) r1 r2 →
  impactOrdered VMX_CATEGORIES r1 r2.
Proof.
  unfold ranked_before, impactOrdered, impactKey.
  intros [Hlt|[Heq Hpos]]; split; intros; lra.
Qed.

Lemma markedRows_catalog VMX_CATEGORIES settings resultA resultB base :
  fromCatalog VMX_CATEGORIES resultA →
  baseRows settings resultA resultB = Normal base →
  map categoryId base = map Domain.id VMX_CATEGORIES
  ∧ map categoryId (markedRows base) = map Domain.id VMX_CATEGORIES.
Proof.
  unfold fromCatalog. intros HA Hbase.
  rewrite markedRows_ids, (baseRows_ids _ _ _ _ Hbase). done.
Qed.

Lemma orderOf_catalog VMX_CATEGORIES id :
  NoDup (map Domain.id VMX_CATEGORIES) →
  In id (map Domain.id VMX_CATEGORIES) →
  ∃ i, map Domain.id VMX_CATEGORIES !! i = Some id
       ∧ orderOf VMX_CATEGORIES id = inject_Z (Z.of_nat i).
Proof.
  intros Hnd Hid. apply in_map_iff in Hid as (c & <- & Hc).
  apply list_elem_of_In, list_elem_of_lookup in Hc as [i Hi].
  exists i. split; [|by apply orderOf_lookup].
  change (map Domain.id VMX_CATEGORIES) with (Domain.id <$> VMX_CATEGORIES).
  by rewrite list_lookup_fmap, Hi.
Qed.

(** Distinct catalog ids have distinct positions. *)
Lemma orderOf_inj VMX_CATEGORIES id1 id2 :
  NoDup (map Domain.id VMX_CATEGORIES) →
  In id1 (map Domain.id VMX_CATEGORIES) →
  In id2 (map Domain.id VMX_CATEGORIES) →
  orderOf VMX_CATEGORIES id1 == orderOf VMX_CATEGORIES id2 → id1 = id2.
Proof.
  intros Hnd H1 H2 Heq.
  destruct (orderOf_catalog _ _ Hnd H1) as (i1 & Hi1 & Ho1).
  destruct (orderOf_catalog _ _ Hnd H2) as (i2 & Hi2 & Ho2).
  rewrite Ho1, Ho2 in Heq. apply inject_Z_injective, Nat2Z.inj in Heq.
  congruence.
Qed.

Lemma catalog_ids_sorted VMX_CATEGORIES :
  NoDup (map Domain.id VMX_CATEGORIES) →
  StronglySorted (λ a b, orderOf VMX_CATEGORIES a < orderOf VMX_CATEGORIES b)%Q
                 (map Domain.id VMX_CATEGORIES).
Proof.
  intros Hnd. apply (indexed_sorted _ _ 0). intros i id Hi. simpl.
  change (map Domain.id VMX_CATEGORIES) with (Domain.id <$> VMX_CATEGORIES) in Hi.
  rewrite list_lookup_fmap in Hi.
  destruct (VMX_CATEGORIES !! i) as [c|] eqn:Hc; [|done].
  injection Hi as <-. by apply orderOf_lookup.
Qed.

(** Rows with distinct catalog ids that are in position order are strictly
    so. *)
Lemma catalog_rows_strict VMX_CATEGORIES (l : list DeltaRow) :
  NoDup (map Domain.id VMX_CATEGORIES) →
  NoDup (map categoryId l) →
  (∀ r, In r l → In (categoryId r) (map Domain.id VMX_CATEGORIES)) →
  StronglySorted (λ x y, catalogPos VMX_CATEGORIES x <= catalogPos VMX_CATEGORIES y)%Q l →
  StronglySorted (λ x y, catalogPos VMX_CATEGORIES x < catalogPos VMX_CATEGORIES y)%Q l.
Proof.
  intros Hnd Hl Hcat. induction 1 as [|x l Hsorted IH Hx]; [constructor|].
  simpl in Hl. apply NoDup_cons in Hl as [Hxl Hl].
  constructor.
  - apply IH; [done|]. intros; apply Hcat; by right.
  - rewrite List.Forall_forall in *. intros y Hy.
    destruct (Qlt_le_dec (catalogPos VMX_CATEGORIES x) (catalogPos VMX_CATEGORIES y))
      as [?|Hle]; [done|].
    destruct Hxl. apply list_elem_of_In.
    assert (categoryId x = categoryId y) as ->; [|by apply in_map].
    apply (orderOf_inj VMX_CATEGORIES); [done| | |].
    + apply Hcat. by left.
    + apply Hcat. by right.
    + apply Qle_antisym; [by apply Hx|done].
Qed.

Lemma filter_Permutation_list {A : Type} (p : A → bool) (l l' : list A) :
  Permutation l l' → Permutation (List.filter p l) (List.filter p l').
Proof.
  induction 1 as [|x l l' _ IH|x y l|l l' l'' _ IH1 _ IH2]; simpl.
  - done.
  - destruct (p x); [by constructor|done].
  - destruct (p x), (p y); try done. apply perm_swap.
  - by rewrite IH1.
Qed.

(** C6: for results with one entry per catalog category, the rows of a
    report in impact mode are non-increasing in [|deltaCost|], and rows of
    equal magnitude are in catalog order when the entries of scenario A are
    in catalog order; in category mode the rows are in catalog order
    whatever their magnitudes, and without the drivers-only filter their ids
    are the catalog ids in order.  In both modes the rows of the report are
    the rows of the comparison in another order: all of them without the
    drivers-only filter, the marked ones with it. *)
Theorem row_order VMX_CATEGORIES settings resultA resultB rep :
  NoDup (map Domain.id VMX_CATEGORIES) →
  Permutation (map Domain.categoryId (Domain.categories resultA))
              (map Domain.id VMX_CATEGORIES) →
  delta VMX_CATEGORIES settings true (Some resultA) (Some resultB) = Normal (Some rep) →
  (deltaSort settings = impact →
     StronglySorted (λ r1 r2, Qabs (deltaCost r2) <= Qabs (deltaCost r1))%Q (rows rep)
     ∧ (fromCatalog VMX_CATEGORIES resultA →
        StronglySorted (impactOrdered VMX_CATEGORIES) (rows rep)))
  ∧ (deltaSort settings = category →
     StronglySorted (λ r1 r2, catalogPos VMX_CATEGORIES r1 < catalogPos VMX_CATEGORIES r2)%Q
                    (rows rep)
     ∧ (deltaDriversOnly settings = false →
        map categoryId (rows rep) = map Domain.id VMX_CATEGORIES))
  ∧ (∃ base,
       baseRows settings resultA resultB = Normal base
       ∧ Permutation (rows rep)
                     (if deltaDriversOnly settings
                      then List.filter isTopDriver (markedRows base)
                      else markedRows base)).
Proof.
  intros Hnd HA Hrep.
  apply delta_Normal in Hrep as (base & Hbase & Hrows & _).
  assert (Hids : Permutation (map categoryId (markedRows base))
                             (map Domain.id VMX_CATEGORIES)).
  { by rewrite markedRows_ids, (baseRows_ids _ _ _ _ Hbase). }
  assert (Hshown : Permutation (rows rep)
                     (if deltaDriversOnly settings
                      then List.filter isTopDriver (markedRows base)
                      else markedRows base)).
  { rewrite Hrows. unfold shownRows. destruct (deltaDriversOnly settings).
    - apply filter_Permutation_list, sortRows_Permutation.
    - apply sortRows_Permutation. }
  refine (conj _ (conj _ (ex_intro _ base (conj Hbase Hshown))));
    clear Hshown; rewrite Hrows; unfold sortRows; intros Hmode; rewrite Hmode.
  - split.
    + apply shownRows_sorted.
      eapply StronglySorted_weaken;
        [|apply (array_sort_sorted_by_key _ impactKey)].
      * intros x y. unfold impactKey. simpl. lra.
      * intros x y. unfold impactKey. ring.
    + intros Hcat.
      destruct (markedRows_catalog _ _ _ _ _ Hcat Hbase) as [_ Heq].
      apply shownRows_sorted.
      apply (StronglySorted_weaken _ _ _ (ranked_impactOrdered VMX_CATEGORIES)).
      apply array_sort_ranked; [|by apply catalog_rows_sorted].
      intros x y. unfold impactKey. ring.
  - set (sorted := array_sort _ (markedRows base)).
    assert (Hperm : Permutation (map categoryId sorted) (map Domain.id VMX_CATEGORIES)).
    { rewrite <- Hids. apply Permutation_map, array_sort_Permutation. }
    assert (Hstrict : StronglySorted
              (λ x y, catalogPos VMX_CATEGORIES x < catalogPos VMX_CATEGORIES y)%Q sorted).
    { apply catalog_rows_strict; [done| | |].
      - by rewrite Hperm.
      - intros r Hr. apply (Permutation_in _ Hperm). by apply in_map.
      - by apply (array_sort_sorted_by_key _ (catalogPos VMX_CATEGORIES)). }
    split; [by apply shownRows_sorted|].
    intros Hall. unfold shownRows. rewrite Hall.
    apply (StronglySorted_unique_strong
             (λ a b, orderOf VMX_CATEGORIES a < orderOf VMX_CATEGORIES b)%Q).
    + intros a b _ _ Hab Hba. lra.
    + apply (StronglySorted_fmap categoryId
               (λ x y, catalogPos VMX_CATEGORIES x < catalogPos VMX_CATEGORIES y)%Q
               (λ a b, orderOf VMX_CATEGORIES a < orderOf VMX_CATEGORIES b)%Q);
        [by intros x y|done].
    + by apply catalog_ids_sorted.
    + done.
Qed.

(** ** Top drivers *)

Lemma Qabs_gt_zero x : gt (Qabs x) 0 = true ↔ ¬ x == 0.
Proof.
  rewrite gt_true. split.
  - intros Hpos Hx. rewrite Hx in Hpos. vm_compute in Hpos. discriminate.
  - intros Hx. apply Qabs_case; intros Hsign.
    + destruct (Qlt_le_dec 0 x) as [?|Hle]; [done|].
      destruct Hx. by apply Qle_antisym.
    + destruct (Qlt_le_dec x 0) as [?|Hle]; [lra|].
      destruct Hx. by apply Qle_antisym.
Qed.

Lemma eligible_In base r :
  In r (eligible base) ↔ In r base ∧ ¬ deltaCost r == 0.
Proof. unfold eligible. by rewrite filter_In, Qabs_gt_zero. Qed.

Lemma byAbs_In base r : In r (byAbs base) ↔ In r (eligible base).
Proof. apply array_sort_In. Qed.

Lemma byAbs_sorted VMX_CATEGORIES base :
  NoDup (map Domain.id VMX_CATEGORIES) →
  map categoryId base = map Domain.id VMX_CATEGORIES →
  StronglySorted (ranked_before impactKey (catalogPos VMX_CATEGORIES)) (byAbs base).
Proof.
  intros Hnd Hids. unfold byAbs.
  apply array_sort_ranked.
  - intros x y. unfold impactKey. ring.
  - apply StronglySorted_filter. by apply catalog_rows_sorted.
Qed.

Lemma topSet_elem base id :
  id ∈ topSet base ↔ In id (map categoryId (firstn 3 (byAbs base))).
Proof. unfold topSet. by rewrite elem_of_list_to_set, list_elem_of_In. Qed.

(** With one row per category, the set of ids picks out the rows themselves. *)
Lemma topSet_row base r0 :
  NoDup (map categoryId base) → In r0 base →
  categoryId r0 ∈ topSet base ↔ In r0 (firstn 3 (byAbs base)).
Proof.
  intros Hnd Hr0. rewrite topSet_elem, in_map_iff. split.
  - intros (r1 & Hid & Hr1).
    assert (r1 = r0) as <-; [|done].
    apply (NoDup_map_inj categoryId base); [done| |done|done].
    apply firstn_In, byAbs_In, eligible_In in Hr1. tauto.
  - intros H. eauto.
Qed.

Lemma driver_rank VMX_CATEGORIES base r0 :
  NoDup (map Domain.id VMX_CATEGORIES) →
  map categoryId base = map Domain.id VMX_CATEGORIES →
  In r0 base →
  In r0 (firstn 3 (byAbs base))
  ↔ ¬ deltaCost r0 == 0 ∧ driverRank VMX_CATEGORIES base r0 < 3.
Proof.
  intros Hnd Hids Hr0.
  unfold driverRank, outranks.
  rewrite (filter_length_Permutation _ (eligible base) (byAbs base))
    by (symmetry; apply array_sort_Permutation).
  split.
  - intros Hin. pose proof (firstn_In _ _ _ Hin) as Hin'.
    split; [apply byAbs_In, eligible_In in Hin'; tauto|].
    apply (take_rank (ranked_before impactKey (catalogPos VMX_CATEGORIES))
                     (ranked_beforeb impactKey (catalogPos VMX_CATEGORIES))
                     (ranked_beforeb_true _ _)
                     (ranked_before_irrefl _ _)
                     (ranked_before_asym _ _)
                     (byAbs base) 3 r0); auto using byAbs_sorted.
  - intros [Hne Hrank].
    apply (take_rank (ranked_before impactKey (catalogPos VMX_CATEGORIES))
                     (ranked_beforeb impactKey (catalogPos VMX_CATEGORIES))
                     (ranked_beforeb_true _ _)
                     (ranked_before_irrefl _ _)
                     (ranked_before_asym _ _)
                     (byAbs base) 3 r0); auto using byAbs_sorted.
    apply byAbs_In, eligible_In. done.
Qed.

Lemma NoDup_map_filter {A B : Type} (f : A → B) (p : A → bool) l :
  NoDup (map f l) → NoDup (map f (List.filter p l)).
Proof.
  induction l as [|x l IH]; simpl; [done|].
  rewrite NoDup_cons. intros [Hx Hnd].
  destruct (p x); simpl; [|by apply IH].
  apply NoDup_cons. split; [|by apply IH].
  rewrite list_elem_of_In in *. intros Hin. apply Hx.
  apply in_map_iff in Hin as (y & Hy & Hin).
  apply filter_In in Hin as [Hin _]. rewrite <- Hy. by apply in_map.
Qed.

(** The number of drivers: three, or all rows with a non-zero [deltaCost]
    when there are fewer. *)
Lemma drivers_count base :
  NoDup (map categoryId base) →
  length (List.filter isTopDriver (markedRows base))
  = Nat.min 3 (length (eligible base)).
Proof.
  intros Hnd.
  assert (Htake : length (map categoryId (firstn 3 (byAbs base)))
                  = Nat.min 3 (length (eligible base))).
  { unfold byAbs. by rewrite length_map, length_take, array_sort_length. }
  apply Nat.le_antisymm.
  - rewrite <- Htake, <- (length_map categoryId (List.filter _ _)).
    apply NoDup_incl_length.
    + apply NoDup_ListNoDup, NoDup_map_filter. by rewrite markedRows_ids.
    + intros id Hid. apply in_map_iff in Hid as (r & <- & Hr).
      apply filter_In in Hr as [Hr Htop].
      apply markedRows_In in Hr as (r0 & _ & ->). simpl in *.
      apply bool_decide_eq_true in Htop. by apply topSet_elem.
  - rewrite <- Htake, <- (length_map categoryId (List.filter _ _)).
    apply NoDup_incl_length.
    + apply NoDup_ListNoDup. rewrite <- firstn_map.
      assert (Hall : NoDup (map categoryId (byAbs base))).
      { unfold byAbs.
        rewrite (Permutation_map categoryId (array_sort_Permutation _ _)).
        by apply NoDup_map_filter. }
      rewrite <- (firstn_skipn 3 (map categoryId (byAbs base))) in Hall.
      by apply NoDup_app in Hall as [? _].
    + intros id Hid. pose proof Hid as Htop. apply topSet_elem in Htop.
      apply in_map_iff in Hid as (r0 & <- & Hr0).
      apply firstn_In, byAbs_In, eligible_In in Hr0 as [Hr0 _].
      apply in_map_iff. exists (markRow (topSet base) r0). split; [done|].
      apply filter_In. split; [apply markedRows_In; eauto|].
      simpl. by apply bool_decide_eq_true.
Qed.

Lemma drivers_at_most_three base :
  NoDup (map categoryId base) →
  length (List.filter isTopDriver (markedRows base)) ≤ 3.
Proof. intros Hnd. rewrite drivers_count by done. lia. Qed.

Lemma shown_drivers_length VMX_CATEGORIES settings l :
  length (List.filter isTopDriver (shownRows settings (sortRows VMX_CATEGORIES settings l)))
  ≤ length (List.filter isTopDriver l).
Proof.
  rewrite <- (filter_length_Permutation isTopDriver _ _
                (sortRows_Permutation VMX_CATEGORIES settings l)).
  unfold shownRows. destruct (deltaDriversOnly settings); [|done].
  generalize (sortRows VMX_CATEGORIES settings l). intros l'.
  induction l' as [|x l' IH]; simpl; [done|].
  destruct (isTopDriver x) eqn:Hx; simpl; rewrite ?Hx; simpl; lia.
Qed.

(** C4: over results that follow the catalog, a row is marked as a top
    driver exactly when its [deltaCost] is not zero and fewer than three
    rows with a non-zero [deltaCost] are ranked before it, the ranking being
    by [|deltaCost|], larger first, and by catalog order among equal
    magnitudes.  Three rows are marked, or all rows with a non-zero
    [deltaCost] when there are fewer; the report shows at most three marked
    rows, and a row with a zero [deltaCost] is never marked. *)
Theorem top_drivers VMX_CATEGORIES settings resultA resultB rep :
  NoDup (map Domain.id VMX_CATEGORIES) →
  fromCatalog VMX_CATEGORIES resultA →
  delta VMX_CATEGORIES settings true (Some resultA) (Some resultB) = Normal (Some rep) →
  ∃ base,
    baseRows settings resultA resultB = Normal base
    ∧ (∀ r, In r (rows rep) → In r (markedRows base))
    ∧ (deltaDriversOnly settings = false → Permutation (rows rep) (markedRows base))
    ∧ (∀ r, In r (markedRows base) →
         (isTopDriver r = true
          ↔ ¬ deltaCost r == 0 ∧ driverRank VMX_CATEGORIES base r < 3))
    ∧ length (List.filter isTopDriver (markedRows base))
      = Nat.min 3 (length (eligible base))
    ∧ length (List.filter isTopDriver (rows rep)) ≤ 3
    ∧ (∀ r, In r (markedRows base) → deltaCost r == 0 → isTopDriver r = false).
Proof.
  intros Hnd HA Hrep.
  apply delta_Normal in Hrep as (base & Hbase & Hrows & _).
  destruct (markedRows_catalog _ _ _ _ _ HA Hbase) as [Hids _].
  assert (Hnd' : NoDup (map categoryId base)) by by rewrite Hids.
  assert (Hiff : ∀ r, In r (markedRows base) →
            (isTopDriver r = true
             ↔ ¬ deltaCost r == 0 ∧ driverRank VMX_CATEGORIES base r < 3)).
  { intros r Hr. apply markedRows_In in Hr as (r0 & Hr0 & ->). simpl.
    rewrite bool_decide_eq_true, (topSet_row base r0 Hnd' Hr0).
    apply (driver_rank VMX_CATEGORIES base r0 Hnd Hids Hr0). }
  exists base. split; [done|].
  split; [intros r; by apply (rows_In_marked VMX_CATEGORIES settings)|].
  split.
  { intros Hall. rewrite Hrows. unfold shownRows. rewrite Hall.
    apply sortRows_Permutation. }
  split; [done|].
  split; [by apply drivers_count|].
  split.
  { rewrite Hrows. etransitivity; [apply shown_drivers_length|].
    by apply drivers_at_most_three. }
  intros r Hr Hzero. destruct (isTopDriver r) eqn:Htop; [|done].
  apply (Hiff r Hr) in Htop as [Hne _]. done.
Qed.

(** ** The summary lists *)






(** ** The properties on the sample comparison *)

Lemma sample_catalog_NoDup : NoDup (map Domain.id Sample.catalog).
Proof. apply (bool_decide_unpack _). vm_compute. exact I. Defined.

Lemma top_drivers_witness :
  let settings := Sample.settingsWith impact false in
  let rep := Sample.reportOf settings Sample.scenarioA Sample.scenarioB in
  ∃ base,
    baseRows settings Sample.scenarioA Sample.scenarioB = Normal base
    ∧ (∀ r, In r (rows rep) → In r (markedRows base))
    ∧ (deltaDriversOnly settings = false → Permutation (rows rep) (markedRows base))
    ∧ (∀ r, In r (markedRows base) →
         (isTopDriver r = true
          ↔ ¬ deltaCost r == 0 ∧ driverRank Sample.catalog base r < 3))
    ∧ length (List.filter isTopDriver (markedRows base))
      = Nat.min 3 (length (eligible base))
    ∧ length (List.filter isTopDriver (rows rep)) ≤ 3
    ∧ (∀ r, In r (markedRows base) → deltaCost r == 0 → isTopDriver r = false).
Proof.
  apply (top_drivers Sample.catalog (Sample.settingsWith impact false)
           Sample.scenarioA Sample.scenarioB).
  - exact sample_catalog_NoDup.
  - reflexivity.
  - vm_compute. reflexivity.
Defined.

Lemma row_order_witness :
  (let settings := Sample.settingsWith impact false in
   let rep := Sample.reportOf settings Sample.scenarioA SampleState.tiedB in
   (deltaSort settings = impact →
      StronglySorted (λ r1 r2, Qabs (deltaCost r2) <= Qabs (deltaCost r1))%Q (rows rep)
      ∧ (fromCatalog Sample.catalog Sample.scenarioA →
         StronglySorted (impactOrdered Sample.catalog) (rows rep)))
   ∧ (deltaSort settings = category →
      StronglySorted (λ r1 r2, catalogPos Sample.catalog r1 < catalogPos Sample.catalog r2)%Q
                     (rows rep)
      ∧ (deltaDriversOnly settings = false →
         map categoryId (rows rep) = map Domain.id Sample.catalog))
   ∧ (∃ base,
        baseRows settings Sample.scenarioA SampleState.tiedB = Normal base
        ∧ Permutation (rows rep)
                      (if deltaDriversOnly settings
                       then List.filter isTopDriver (markedRows base)
                       else markedRows base)))
  ∧ (let settings := Sample.settingsWith category false in
     let rep := Sample.reportOf settings Sample.shuffledA Sample.scenarioB in
     (deltaSort settings = impact →
        StronglySorted (λ r1 r2, Qabs (deltaCost r2) <= Qabs (deltaCost r1))%Q (rows rep)
        ∧ (fromCatalog Sample.catalog Sample.shuffledA →
           StronglySorted (impactOrdered Sample.catalog) (rows rep)))
     ∧ (deltaSort settings = category →
        StronglySorted (λ r1 r2, catalogPos Sample.catalog r1 < catalogPos Sample.catalog r2)%Q
                       (rows rep)
        ∧ (deltaDriversOnly settings = false →
           map categoryId (rows rep) = map Domain.id Sample.catalog))
     ∧ (∃ base,
          baseRows settings Sample.shuffledA Sample.scenarioB = Normal base
          ∧ Permutation (rows rep)
                        (if deltaDriversOnly settings
                         then List.filter isTopDriver (markedRows base)
                         else markedRows base))).
Proof.
  split.
  - (* impact mode, with two rows of the same magnitude *)
    apply (row_order Sample.catalog (Sample.settingsWith impact false)
             Sample.scenarioA SampleState.tiedB).
    + exact sample_catalog_NoDup.
    + reflexivity.
    + vm_compute. reflexivity.
  - (* category mode, from entries that are out of catalog order *)
    apply (row_order Sample.catalog (Sample.settingsWith category false)
             Sample.shuffledA Sample.scenarioB).
    + exact sample_catalog_NoDup.
    + apply (bool_decide_unpack _). vm_compute. exact I.
    + vm_compute. reflexivity.
Defined.

Lemma computeSafe_boundary_witness :
  computeSafe Sample.evaluates 15000 tt []
    = {| result := Some Sample.scenarioA; error := None |}
  ∧ computeSafe Sample.fails 0 tt []
    = {| result := None; error := Some "areaSqft must be > 0" |}.
Proof.
  split.
  - destruct (computeSafe_boundary Sample.evaluates 15000 tt []) as (H & _).
    apply H. reflexivity.
  - destruct (computeSafe_boundary Sample.fails 0 tt []) as (_ & H & _).
    apply H. reflexivity.
Defined.

Lemma normalizeSelections_complete_witness :
  let out := normalizeSelections Sample.catalog Sample.stored
                                 (buildDefaultSelections Sample.catalog) in
  (∀ k, is_Some (out !! k) ↔ In k ["W"; "X"; "Y"; "Z"])
  ∧ (∀ k v, out !! k = Some v → wellFormedSelection k v).
Proof.
  destruct (normalizeSelections_complete Sample.catalog Sample.stored)
    as (Hkeys & _ & Hwf & _).
  split; [exact Hkeys|exact Hwf].
Defined.

Lemma delta_antisymmetric_witness :
  let settings := Sample.settingsWith impact false in
  let settings' := Sample.settingsWith category false in
  ∃ repAB repBA,
    delta Sample.catalog settings true (Some Sample.scenarioA) (Some Sample.scenarioB)
      = Normal (Some repAB)
    ∧ delta Sample.catalog settings' true (Some Sample.scenarioB) (Some Sample.scenarioA)
      = Normal (Some repBA)
    ∧ totalDelta repAB == - totalDelta repBA
    ∧ (∀ r r', In r (rows repAB) → In r' (rows repBA) →
         categoryId r = categoryId r' →
         deltaCost r == - deltaCost r' ∧ deltaPct r == - deltaPct r')
    ∧ (deltaDriversOnly settings = false → deltaDriversOnly settings' = false →
       ∀ c, In c Sample.catalog →
         ∃ r r', In r (rows repAB) ∧ In r' (rows repBA)
                 ∧ categoryId r = Domain.id c ∧ categoryId r' = Domain.id c).
Proof.
  apply (delta_antisymmetric Sample.catalog (Sample.settingsWith impact false)
           (Sample.settingsWith category false) Sample.scenarioA Sample.scenarioB).
  - exact sample_catalog_NoDup.
  - reflexivity.
  - reflexivity.
Defined.

(** ** Worked examples *)

(** The example of the specification: X and Y are the two drivers and are
    [high], Z is flat, [low] and no driver; the total does not change. *)
Example spec_example :
  let rep := Sample.reportOf (Sample.settingsWith category false)
                             Sample.specA Sample.specB in
  map (λ r, (categoryId r, deltaCost r, heat r, isTopDriver r)) (rows rep)
  = [ ("X", 100%Q, high, true); ("Y", (-100)%Q, high, true); ("Z", 0%Q, low, false) ]
  ∧ totalDelta rep == 0
  ∧ map categoryId (increases rep) = ["X"]
  ∧ map categoryId (decreases rep) = ["Y"].
Proof. vm_compute. auto. Qed.

(** Category mode puts shuffled entries back into catalog order; impact
    mode orders by magnitude. *)
Example shuffled_example :
  map categoryId
      (rows (Sample.reportOf (Sample.settingsWith category false)
                             Sample.shuffledA Sample.scenarioB))
  = ["W"; "X"; "Y"; "Z"]
  ∧ map categoryId
        (rows (Sample.reportOf (Sample.settingsWith impact false)
                               Sample.shuffledA Sample.scenarioB))
    = ["W"; "X"; "Y"; "Z"]
  ∧ map deltaCost
        (rows (Sample.reportOf (Sample.settingsWith impact false)
                               Sample.shuffledA Sample.scenarioB))
    = [100%Q; (-90)%Q; (-80)%Q; 10%Q].
Proof. vm_compute. auto. Qed.

Example normalizeSelections_example :
  let out := normalizeSelections Sample.catalog Sample.stored
                                 (buildDefaultSelections Sample.catalog) in
  out !! "W" = Some (selection "W" "HIGH")
  ∧ out !! "X" = Some (selection "X" "MEDIUM")
  ∧ out !! "Y" = Some (selection "Y" "MEDIUM")
  ∧ out !! "Z" = Some (selection "Z" "MEDIUM")
  ∧ out !! "Q" = None
  ∧ normalizeSelections Sample.catalog JsNull (buildDefaultSelections Sample.catalog)
    = buildDefaultSelections Sample.catalog.
Proof. vm_compute. auto 10. Qed.

Example computeSafe_example :
  computeSafe Sample.evaluates 15000 tt []
    = {| result := Some Sample.scenarioA; error := None |}
  ∧ computeSafe Sample.fails 0 tt []
    = {| result := None; error := Some "areaSqft must be > 0" |}.
Proof. split; reflexivity. Qed.

(** * Further properties *)

(** ** Outcomes and rows of the comparison *)

Lemma array_map_Throw_source {A B : Type} (f : A → Completion B) xs e :
  array_map f xs = Throw e → ∃ x, In x xs ∧ f x = Throw e.
Proof.
  induction xs as [|x xs IH]; simpl; [done|].
  destruct (f x) as [y|e'] eqn:Hx; simpl.
  - destruct (array_map f xs) as [ys|e'] eqn:Hxs; simpl; [done|].
    intros [= ->]. destruct (IH eq_refl) as (x' & ? & ?). eauto.
  - intros [= ->]. eauto.
Qed.

(** X1: the comparison returns [null] exactly when compare mode is off or
    one of the two results is absent; with both results present it returns
    a report exactly when every category of A occurs in B, and throws
    exactly when some category of A does not. *)
Theorem delta_outcome VMX_CATEGORIES settings compareMode resultA resultB :
  (delta VMX_CATEGORIES settings compareMode resultA resultB = Normal None
   ↔ compareMode = false ∨ resultA = None ∨ resultB = None)
  ∧ (∀ A B, compareMode = true → resultA = Some A → resultB = Some B →
       ((∃ rep, delta VMX_CATEGORIES settings compareMode resultA resultB
                = Normal (Some rep))
        ↔ ∀ a, In a (Domain.categories A) →
               In (Domain.categoryId a) (map Domain.categoryId (Domain.categories B)))
       ∧ ((∃ e, delta VMX_CATEGORIES settings compareMode resultA resultB = Throw e)
          ↔ ∃ a, In a (Domain.categories A)
                 ∧ ¬ In (Domain.categoryId a)
                        (map Domain.categoryId (Domain.categories B)))).
Proof.
  split.
  - destruct compareMode, resultA as [A|], resultB as [B|]; simpl;
      try (split; [intros _|done]; auto).
    split; [|by intros [?|[?|?]]].
    destruct (baseRows settings A B); simpl; done.
  - intros A B -> -> ->. split; split.
    + intros [rep Hrep] a Ha.
      apply delta_Normal in Hrep as (base & Hbase & _).
      apply baseRows_rows in Hbase.
      apply list_elem_of_In, list_elem_of_lookup in Ha as [i Hi].
      destruct (Forall2_lookup_l _ _ _ _ _ Hbase Hi) as (r & _ & Hr).
      apply baseRow_Normal in Hr as (b & Hfind & _).
      apply find_some in Hfind as [Hb Heq]. apply String.eqb_eq in Heq.
      rewrite <- Heq. by apply in_map.
    + intros Hall. destruct (baseRows_returns settings A B Hall) as [base Hbase].
      by apply (delta_returns VMX_CATEGORIES) in Hbase.
    + intros [e He]. unfold delta, baseRows in He.
      destruct (array_map _ _) as [base|e'] eqn:Hmap; simpl in He; [done|].
      apply array_map_Throw_source in Hmap as (a & Ha & Hthrow).
      apply baseRow_Throw in Hthrow as [_ Hnone].
      exists a. split; [done|]. intros Hin.
      apply in_map_iff in Hin as (b & Hid & Hb). by apply (Hnone b).
    + intros (a & Ha & Hnot).
      destruct (array_map_Throw (baseRow settings (aTotalDivisor A) B)
                  (Domain.categories A) a Ha) as (a' & e & _ & _ & Hmap).
      { intros r Hr. apply baseRow_Normal in Hr as (b & Hfind & _).
        apply find_some in Hfind as [Hb Heq]. apply String.eqb_eq in Heq.
        apply Hnot. rewrite <- Heq. by apply in_map. }
      exists e. unfold delta, baseRows. by rewrite Hmap.
Qed.

Lemma report_rows_source VMX_CATEGORIES settings resultA resultB rep r :
  delta VMX_CATEGORIES settings true (Some resultA) (Some resultB) = Normal (Some rep) →
  In r (rows rep) →
  ∃ a, In a (Domain.categories resultA)
       ∧ categoryId r = Domain.categoryId a
       ∧ categoryLabel r = Domain.label a.
Proof.
  intros Hrep Hin.
  destruct (report_row _ _ _ _ _ _ Hrep Hin)
    as (base & r0 & a & _ & _ & _ & -> & Ha & Hrow).
  exists a. split; [done|]. unfold baseRow in Hrow.
  destruct (List.find _ _); [|done]. by injection Hrow as <-.
Qed.

(** X2: without the drivers-only filter a report has exactly one row per
    entry of scenario A, whatever the sort mode: the ids of its rows are a
    rearrangement of the ids of A's entries, and each row carries the id and
    the label of an entry of A. *)
Theorem report_rows_complete VMX_CATEGORIES settings resultA resultB rep :
  delta VMX_CATEGORIES settings true (Some resultA) (Some resultB) = Normal (Some rep) →
  deltaDriversOnly settings = false →
  Permutation (map categoryId (rows rep))
              (map Domain.categoryId (Domain.categories resultA))
  ∧ length (rows rep) = length (Domain.categories resultA)
  ∧ (∀ r, In r (rows rep) →
       ∃ a, In a (Domain.categories resultA)
            ∧ categoryId r = Domain.categoryId a
            ∧ categoryLabel r = Domain.label a).
Proof.
  intros Hrep Hall.
  pose proof Hrep as Hrep'.
  apply delta_Normal in Hrep' as (base & Hbase & Hrows & _).
  assert (Hperm : Permutation (map categoryId (rows rep))
                    (map Domain.categoryId (Domain.categories resultA))).
  { rewrite Hrows. unfold shownRows. rewrite Hall.
    rewrite (Permutation_map categoryId (sortRows_Permutation _ _ _)).
    by rewrite markedRows_ids, (baseRows_ids _ _ _ _ Hbase). }
  split; [done|]. split.
  - apply Permutation_length in Hperm. by rewrite !length_map in Hperm.
  - intros r Hr. by apply (report_rows_source _ _ _ _ _ _ Hrep).
Qed.

Lemma report_rows_complete_witness :
  let rep := Sample.reportOf (Sample.settingsWith impact false)
                             Sample.shuffledA Sample.scenarioB in
  Permutation (map categoryId (rows rep))
              (map Domain.categoryId (Domain.categories Sample.shuffledA))
  ∧ length (rows rep) = length (Domain.categories Sample.shuffledA)
  ∧ (∀ r, In r (rows rep) →
       ∃ a, In a (Domain.categories Sample.shuffledA)
            ∧ categoryId r = Domain.categoryId a
            ∧ categoryLabel r = Domain.label a).
Proof.
  apply (report_rows_complete Sample.catalog (Sample.settingsWith impact false)
           Sample.shuffledA Sample.scenarioB).
  - vm_compute. reflexivity.
  - reflexivity.
Defined.

(** X3: with the drivers-only filter a report shows exactly the rows that
    were marked as top drivers in the full row set; when the entries of A
    have distinct ids these are three rows, or as many as have a non-zero
    [deltaCost] when there are fewer. *)
Theorem drivers_only_rows VMX_CATEGORIES settings resultA resultB rep :
  delta VMX_CATEGORIES settings true (Some resultA) (Some resultB) = Normal (Some rep) →
  deltaDriversOnly settings = true →
  ∃ base,
    baseRows settings resultA resultB = Normal base
    ∧ (∀ r, In r (rows rep) ↔ In r (markedRows base) ∧ isTopDriver r = true)
    ∧ (NoDup (map Domain.categoryId (Domain.categories resultA)) →
       length (rows rep) = Nat.min 3 (length (eligible base))).
Proof.
  intros Hrep Honly.
  apply delta_Normal in Hrep as (base & Hbase & Hrows & _).
  exists base. split; [done|].
  unfold shownRows in Hrows. rewrite Honly in Hrows.
  split.
  - intros r. rewrite Hrows, filter_In.
    split; intros [Hin Htop]; (split; [|done]).
    + by apply (Permutation_in _ (sortRows_Permutation _ _ _)) in Hin.
    + by apply (Permutation_in _ (Permutation_sym (sortRows_Permutation _ _ _))).
  - intros Hnd. rewrite Hrows.
    rewrite (filter_length_Permutation _ _ _ (sortRows_Permutation _ _ _)).
    apply drivers_count. by rewrite (baseRows_ids _ _ _ _ Hbase).
Qed.

Lemma drivers_only_rows_witness :
  let settings := Sample.settingsWith category true in
  let rep := Sample.reportOf settings Sample.scenarioA Sample.scenarioB in
  ∃ base,
    baseRows settings Sample.scenarioA Sample.scenarioB = Normal base
    ∧ (∀ r, In r (rows rep) ↔ In r (markedRows base) ∧ isTopDriver r = true)
    ∧ (NoDup (map Domain.categoryId (Domain.categories Sample.scenarioA)) →
       length (rows rep) = Nat.min 3 (length (eligible base))).
Proof.
  apply (drivers_only_rows Sample.catalog (Sample.settingsWith category true)
           Sample.scenarioA Sample.scenarioB).
  - vm_compute. reflexivity.
  - reflexivity.
Defined.

(** ** Direction and heat *)

Lemma fraction_of_zero (d t : Q) : d == 0 → (Qabs d / t == 0)%Q.
Proof. intros H. rewrite H. reflexivity. Qed.

Lemma report_row_direction VMX_CATEGORIES settings resultA resultB rep r :
  delta VMX_CATEGORIES settings true (Some resultA) (Some resultB) = Normal (Some rep) →
  In r (rows rep) →
  direction r = if gt (deltaCost r) 0 then increase
                else if lt (deltaCost r) 0 then decrease else flat.
Proof.
  intros Hrep Hin.
  destruct (report_row _ _ _ _ _ _ Hrep Hin)
    as (base & r0 & a & _ & _ & _ & -> & _ & Hrow).
  unfold baseRow in Hrow. destruct (List.find _ _); [|done].
  by injection Hrow as <-.
Qed.

(** X4: the direction of a row follows the sign of its [deltaCost]:
    [increase] for a positive one, [decrease] for a negative one and [flat]
    for zero; the rows listed as increases have direction [increase] and
    those listed as decreases [decrease]. *)
Theorem direction_consistent VMX_CATEGORIES settings resultA resultB rep :
  delta VMX_CATEGORIES settings true (Some resultA) (Some resultB) = Normal (Some rep) →
  (∀ r, In r (rows rep) →
     (direction r = increase ↔ (0 < deltaCost r)%Q)
     ∧ (direction r = decrease ↔ (deltaCost r < 0)%Q)
     ∧ (direction r = flat ↔ deltaCost r == 0))
  ∧ (∀ r, In r (increases rep) → direction r = increase)
  ∧ (∀ r, In r (decreases rep) → direction r = decrease).
Proof.
  intros Hrep.
  assert (Hdir : ∀ r, In r (rows rep) →
            (direction r = increase ↔ (0 < deltaCost r)%Q)
            ∧ (direction r = decrease ↔ (deltaCost r < 0)%Q)
            ∧ (direction r = flat ↔ deltaCost r == 0)).
  { intros r Hr. rewrite (report_row_direction _ _ _ _ _ _ Hrep Hr).
    destruct (gt (deltaCost r) 0) eqn:Hgt.
    - apply gt_true in Hgt. repeat split; intros; (done || lra).
    - apply gt_false in Hgt. destruct (lt (deltaCost r) 0) eqn:Hlt.
      + apply lt_true in Hlt. repeat split; intros; (done || lra).
      + apply lt_false in Hlt. repeat split; intros; (done || lra). }
  split; [done|split].
  - intros r Hr. pose proof Hrep as Hrep'.
    apply delta_Normal in Hrep' as (base & _ & _ & Hinc & _).
    rewrite Hinc in Hr. unfold largestIncreases in Hr.
    apply firstn_In, array_sort_In, filter_In in Hr as [Hr Hpos].
    apply gt_true in Hpos. by apply (Hdir r Hr).
  - intros r Hr. pose proof Hrep as Hrep'.
    apply delta_Normal in Hrep' as (base & _ & _ & _ & Hdec & _).
    rewrite Hdec in Hr. unfold largestDecreases in Hr.
    apply firstn_In, array_sort_In, filter_In in Hr as [Hr Hneg].
    apply lt_true in Hneg. by apply (Hdir r Hr).
Qed.

Lemma direction_consistent_witness :
  let rep := Sample.reportOf (Sample.settingsWith impact false)
                             Sample.specA Sample.specB in
  (∀ r, In r (rows rep) →
     (direction r = increase ↔ (0 < deltaCost r)%Q)
     ∧ (direction r = decrease ↔ (deltaCost r < 0)%Q)
     ∧ (direction r = flat ↔ deltaCost r == 0))
  ∧ (∀ r, In r (increases rep) → direction r = increase)
  ∧ (∀ r, In r (decreases rep) → direction r = decrease).
Proof.
  apply (direction_consistent Sample.specCatalog (Sample.settingsWith impact false)
           Sample.specA Sample.specB).
  vm_compute. reflexivity.
Defined.

Lemma base_row_heat settings resultA resultB base a :
  baseRows settings resultA resultB = Normal base → In a base →
  absFracOfATotal a = (Qabs (deltaCost a) / aTotalDivisor resultA)%Q
  ∧ heat a = thresholdHeat settings (absFracOfATotal a).
Proof.
  intros Hbase Ha.
  destruct (baseRows_In _ _ _ _ _ Hbase Ha) as (c & _ & Hrow).
  apply baseRow_Normal in Hrow as (b & _ & _ & _ & _ & Hfrac & Hheat & _). done.
Qed.

Lemma fraction_lt (d1 d2 t : Q) :
  (0 < t)%Q → (Qabs d1 / t < Qabs d2 / t)%Q → (Qabs d1 < Qabs d2)%Q.
Proof.
  intros Ht H. unfold Qdiv in H.
  apply Qmult_lt_r in H; [done|]. by apply Qinv_lt_0_compat.
Qed.

(** A row among the first three of [byAbs] is marked, and its heat is not
    [low] when its impact fraction is positive. *)
Lemma marked_driver_heat base a :
  In a (firstn 3 (byAbs base)) → (0 < absFracOfATotal a)%Q →
  isTopDriver (markRow (topSet base) a) = true
  ∧ heat (markRow (topSet base) a) ≠ low.
Proof.
  intros Hin Hpos. simpl.
  rewrite bool_decide_eq_true_2 by (apply topSet_elem; by apply in_map).
  apply gt_true in Hpos. rewrite Hpos. split; [done|].
  by destruct (heat a).
Qed.

(** X5: when the entries of A have distinct ids, a row marked as a top
    driver has a non-zero [deltaCost], and its heat is [medium] or [high],
    not [low], whenever its impact fraction is not zero. *)
Theorem driver_heat_not_low VMX_CATEGORIES settings resultA resultB rep r :
  delta VMX_CATEGORIES settings true (Some resultA) (Some resultB) = Normal (Some rep) →
  NoDup (map Domain.categoryId (Domain.categories resultA)) →
  In r (rows rep) →
  isTopDriver r = true →
  ¬ deltaCost r == 0
  ∧ (¬ absFracOfATotal r == 0 → heat r = medium ∨ heat r = high).
Proof.
  intros Hrep Hnd Hin Htop. split.
  - apply delta_Normal in Hrep as (base & Hbase & Hrows & _).
    apply (rows_In_marked _ _ _ _ _ Hrows), markedRows_In in Hin as (a & Ha & ->).
    assert (Hnd' : NoDup (map categoryId base))
      by by rewrite (baseRows_ids _ _ _ _ Hbase).
    assert (Hfirst : In a (firstn 3 (byAbs base))).
    { apply (topSet_row base a Hnd' Ha). simpl in Htop.
      by apply bool_decide_eq_true in Htop. }
    apply firstn_In, byAbs_In, eligible_In in Hfirst. simpl. tauto.
  - intros Hfrac.
    pose proof (report_row_fraction_nonneg _ _ _ _ _ _ Hrep Hin) as Hnonneg.
    rewrite (report_row_heat _ _ _ _ _ _ Hrep Hin), Htop.
    rewrite (proj2 (gt_true (absFracOfATotal r) 0)) by lra.
    destruct (thresholdHeat settings (absFracOfATotal r)); simpl; auto.
Qed.

Lemma driver_heat_not_low_witness :
  let rep := Sample.reportOf Sample.coarseSettings Sample.scenarioA Sample.scenarioB in
  let r := Sample.rowAt rep 1 in
  ¬ absFracOfATotal r == 0
  ∧ ¬ deltaCost r == 0
  ∧ (¬ absFracOfATotal r == 0 → heat r = medium ∨ heat r = high).
Proof.
  split; [vm_compute; discriminate|].
  apply (driver_heat_not_low Sample.catalog Sample.coarseSettings
           Sample.scenarioA Sample.scenarioB
           (Sample.reportOf Sample.coarseSettings Sample.scenarioA Sample.scenarioB)).
  - vm_compute. reflexivity.
  - apply (bool_decide_unpack _). vm_compute. exact I.
  - vm_compute. right. left. reflexivity.
  - vm_compute. reflexivity.
Defined.

Lemma heat_le_trans h1 h2 h3 : heat_le h1 h2 → heat_le h2 h3 → heat_le h1 h3.
Proof. by destruct h1, h2, h3. Qed.

Lemma thresholdHeat_mono settings f1 f2 :
  (f1 <= f2)%Q → heat_le (thresholdHeat settings f1) (thresholdHeat settings f2).
Proof.
  intros Hle.
  destruct (thresholdHeat settings f1) eqn:H1; [done| |].
  - apply thresholdHeat_medium in H1 as [Hm _].
    destruct (thresholdHeat settings f2) eqn:H2; [|done|done].
    apply thresholdHeat_low in H2 as [Hh Hno].
    apply Qnot_le_lt in Hh. destruct Hno. split; lra.
  - apply thresholdHeat_high in H1.
    destruct (thresholdHeat settings f2) eqn:H2; [| |done].
    + apply thresholdHeat_low in H2 as [Hh _]. destruct Hh. lra.
    + apply thresholdHeat_medium in H2. lra.
Qed.

(** X6: when the entries of A have distinct ids, heat grows with impact
    across the rows of a report: a row with a strictly larger impact
    fraction never has a lower heat, the upgrade of drivers included. *)
Theorem heat_monotone_in_impact VMX_CATEGORIES settings resultA resultB rep r1 r2 :
  delta VMX_CATEGORIES settings true (Some resultA) (Some resultB) = Normal (Some rep) →
  NoDup (map Domain.categoryId (Domain.categories resultA)) →
  In r1 (rows rep) → In r2 (rows rep) →
  (absFracOfATotal r1 < absFracOfATotal r2)%Q →
  heat_le (heat r1) (heat r2).
Proof.
  intros Hrep Hnd Hr1 Hr2 Hlt.
  pose proof (report_row_heat _ _ _ _ _ _ Hrep Hr1) as Hheat1.
  pose proof (report_row_heat _ _ _ _ _ _ Hrep Hr2) as Hheat2.
  pose proof (thresholdHeat_mono settings _ _ (Qlt_le_weak _ _ Hlt)) as Hmono.
  assert (Hup2 : heat_le (thresholdHeat settings (absFracOfATotal r2)) (heat r2)).
  { rewrite Hheat2.
    by destruct (isTopDriver r2), (thresholdHeat settings (absFracOfATotal r2)),
         (gt (absFracOfATotal r2) 0). }
  destruct (isTopDriver r1 && heat_is_low (thresholdHeat settings (absFracOfATotal r1))
            && gt (absFracOfATotal r1) 0) eqn:Hup1.
  2: { rewrite Hheat1. by apply heat_le_trans with (2 := Hup2). }
  (* [r1] was upgraded: it is a driver, so the larger row [r2] is one too *)
  rewrite Hheat1.
  apply andb_true_iff in Hup1 as [Hup1 Hpos1].
  apply andb_true_iff in Hup1 as [Htop1 _]. apply gt_true in Hpos1.
  apply delta_Normal in Hrep as (base & Hbase & Hrows & _).
  apply (rows_In_marked _ _ _ _ _ Hrows), markedRows_In in Hr1 as (a1 & Ha1 & ->).
  apply (rows_In_marked _ _ _ _ _ Hrows), markedRows_In in Hr2 as (a2 & Ha2 & ->).
  assert (Hnd' : NoDup (map categoryId base))
    by by rewrite (baseRows_ids _ _ _ _ Hbase).
  destruct (base_row_heat _ _ _ _ _ Hbase Ha1) as [Hf1 _].
  destruct (base_row_heat _ _ _ _ _ Hbase Ha2) as [Hf2 _].
  simpl in Hlt, Hpos1, Htop1.
  assert (Hfirst1 : In a1 (firstn 3 (byAbs base))).
  { apply (topSet_row base a1 Hnd' Ha1). by apply bool_decide_eq_true in Htop1. }
  assert (Habs : (Qabs (deltaCost a1) < Qabs (deltaCost a2))%Q).
  { rewrite Hf1, Hf2 in Hlt.
    by apply fraction_lt in Hlt; [|apply aTotalDivisor_pos]. }
  assert (Hfirst2 : In a2 (firstn 3 (byAbs base))).
  { assert (Hin : In a2 (byAbs base)).
    { apply byAbs_In, eligible_In. split; [done|].
      apply Qabs_gt_zero, gt_true. pose proof (Qabs_nonneg (deltaCost a1)). lra. }
    rewrite <- (firstn_skipn 3 (byAbs base)) in Hin.
    apply in_app_or in Hin as [?|Hskip]; [done|].
    pose proof (array_sort_sorted_by_key
                  (λ x y, Qabs (deltaCost y) - Qabs (deltaCost x))%Q impactKey
                  (λ x y, ltac:(unfold impactKey; ring)) (eligible base)) as Hsorted.
    fold (byAbs base) in Hsorted.
    rewrite <- (firstn_skipn 3 (byAbs base)) in Hsorted.
    pose proof (sorted_app_le impactKey _ _ _ _ Hsorted Hfirst1 Hskip) as Hle.
    unfold impactKey in Hle. lra. }
  destruct (marked_driver_heat base a2 Hfirst2) as [_ Hheat].
  { lra. }
  destruct (heat (markRow (topSet base) a2)); done.
Qed.

Lemma heat_monotone_in_impact_witness :
  let rep := Sample.reportOf Sample.coarseSettings Sample.scenarioA Sample.scenarioB in
  heat_le (heat (Sample.rowAt rep 3)) (heat (Sample.rowAt rep 0)).
Proof.
  apply (heat_monotone_in_impact Sample.catalog Sample.coarseSettings
           Sample.scenarioA Sample.scenarioB
           (Sample.reportOf Sample.coarseSettings Sample.scenarioA Sample.scenarioB)).
  - vm_compute. reflexivity.
  - apply (bool_decide_unpack _). vm_compute. exact I.
  - vm_compute. do 3 right. left. reflexivity.
  - vm_compute. left. reflexivity.
  - vm_compute. reflexivity.
Defined.

(** ** Selections: reload and band changes *)

Lemma normalizeSelections_selectionsFor VMX_CATEGORIES input :
  selectionsFor VMX_CATEGORIES
    (normalizeSelections VMX_CATEGORIES input (buildDefaultSelections VMX_CATEGORIES)).
Proof.
  split.
  - intros k. rewrite normalizeSelections_lookup, buildDefaultSelections_lookup.
    rewrite <- list_elem_of_In.
    destruct (bool_decide (k ∈ map Domain.id VMX_CATEGORIES)) eqn:Hk; simpl.
    + apply bool_decide_eq_true in Hk. destruct (acceptable _ _); split; eauto.
    + apply bool_decide_eq_false in Hk. split; [by intros [? ?]|done].
  - intros k v. rewrite normalizeSelections_lookup, buildDefaultSelections_lookup.
    destruct (bool_decide _); simpl; [|done].
    destruct (acceptable _ _) eqn:Hacc; intros [= <-].
    + by apply acceptable_wellFormed.
    + apply selection_wellFormed.
Qed.

Lemma normalizeSelections_own_lookup VMX_CATEGORIES (m : gmap string JsValue) k :
  selectionsFor VMX_CATEGORIES m →
  normalizeSelections VMX_CATEGORIES (JsObject m)
                      (buildDefaultSelections VMX_CATEGORIES) !! k = m !! k.
Proof.
  intros [Hkeys Hwf].
  rewrite normalizeSelections_lookup, buildDefaultSelections_lookup. simpl.
  destruct (bool_decide (k ∈ map Domain.id VMX_CATEGORIES)) eqn:Hk; simpl.
  - apply bool_decide_eq_true, list_elem_of_In, Hkeys in Hk as [v Hv].
    rewrite Hv. simpl. by rewrite (wellFormed_acceptable v k (Hwf k v Hv)).
  - apply bool_decide_eq_false in Hk. rewrite list_elem_of_In in Hk.
    destruct (m !! k) as [v|] eqn:Hv; [|done].
    destruct Hk. apply Hkeys. eauto.
Qed.

(** X8: a record whose keys are the catalog ids and whose entries are
    well-formed selections is left as it is by [normalizeSelections] over
    the default selections: what the page stores, it reads back unchanged. *)
Theorem normalizeSelections_fixed_point VMX_CATEGORIES (m : gmap string JsValue) :
  selectionsFor VMX_CATEGORIES m →
  normalizeSelections VMX_CATEGORIES (JsObject m)
                      (buildDefaultSelections VMX_CATEGORIES) = m.
Proof.
  intros Hsel. apply map_eq. intros k.
  by apply normalizeSelections_own_lookup.
Qed.

Lemma normalizeSelections_fixed_point_witness :
  let m := normalizeSelections Sample.catalog Sample.stored
                               (buildDefaultSelections Sample.catalog) in
  normalizeSelections Sample.catalog (JsObject m)
                      (buildDefaultSelections Sample.catalog) = m.
Proof.
  apply (normalizeSelections_fixed_point Sample.catalog).
  apply normalizeSelections_selectionsFor.
Defined.

(** X9: for any fallback, [normalizeSelections] returns the fallback itself
    when the input is no object, never changes an entry under a key that is
    no catalog id, never drops a key of the fallback, and every entry of its
    result is either the fallback's or a well-formed stored entry under a
    catalog id. *)
Theorem normalizeSelections_fallback VMX_CATEGORIES input (fallback : gmap string JsValue) :
  let out := normalizeSelections VMX_CATEGORIES input fallback in
  ((∀ props, input ≠ JsObject props) → out = fallback)
  ∧ (∀ k, ¬ In k (map Domain.id VMX_CATEGORIES) → out !! k = fallback !! k)
  ∧ (∀ k, is_Some (fallback !! k) → is_Some (out !! k))
  ∧ (∀ k v, out !! k = Some v →
       fallback !! k = Some v
       ∨ (In k (map Domain.id VMX_CATEGORIES)
          ∧ get input k = v ∧ wellFormedSelection k v)).
Proof.
  intros out. split; [|split; [|split]].
  - intros Hno. unfold out, normalizeSelections.
    destruct input as [| | | | | |props]; simpl; rewrite ?orb_true_r; try done.
    by destruct (Hno props).
  - intros k Hk. unfold out. rewrite normalizeSelections_lookup.
    rewrite bool_decide_eq_false_2; [done|]. by rewrite list_elem_of_In.
  - intros k Hk. unfold out. rewrite normalizeSelections_lookup.
    destruct (_ && _); [eauto|done].
  - intros k v. unfold out. rewrite normalizeSelections_lookup.
    destruct (bool_decide (k ∈ map Domain.id VMX_CATEGORIES)) eqn:Hk; simpl; [|auto].
    destruct (acceptable (get input k) k) eqn:Hacc; [|auto].
    intros [= <-]. right. apply bool_decide_eq_true, list_elem_of_In in Hk.
    split; [done|]. split; [done|]. by apply acceptable_wellFormed.
Qed.

Lemma spread_object props : spread (JsObject props) = props.
Proof. reflexivity. Qed.

(** X10: changing the band of a catalog category to one of the three bands
    keeps a complete, well-formed record complete and well-formed; the entry
    of that category gets the new band and keeps its [categoryId]; every
    other entry is untouched. *)
Theorem setBand_keeps_selections VMX_CATEGORIES (id band : string)
    (prev : gmap string JsValue) :
  selectionsFor VMX_CATEGORIES prev →
  In id (map Domain.id VMX_CATEGORIES) →
  validBand band →
  selectionsFor VMX_CATEGORIES (setBand id band prev)
  ∧ (∃ props, setBand id band prev !! id = Some (JsObject props)
              ∧ props !! "band" = Some (JsString band)
              ∧ props !! "categoryId" = Some (JsString id))
  ∧ (∀ k, k ≠ id → setBand id band prev !! k = prev !! k).
Proof.
  intros [Hkeys Hwf] Hid Hband.
  destruct (proj2 (Hkeys id) Hid) as [v Hv].
  destruct (Hwf id v Hv) as (props & old & -> & Hcat & _ & _).
  assert (Hnew : setBand id band prev !! id
                 = Some (JsObject (<["band" := JsString band]> props))).
  { unfold setBand. rewrite lookup_insert_eq, Hv. done. }
  assert (Hother : ∀ k, k ≠ id → setBand id band prev !! k = prev !! k).
  { intros k Hk. unfold setBand. by rewrite lookup_insert_ne. }
  assert (Hprops : (<["band" := JsString band]> props : gmap string JsValue)
                     !! "categoryId" = Some (JsString id)).
  { by rewrite lookup_insert_ne. }
  split; [split|split; [|done]].
  - intros k. destruct (decide (k = id)) as [->|Hk].
    + rewrite Hnew. split; [done|eauto].
    + rewrite (Hother k Hk). apply Hkeys.
  - intros k w. destruct (decide (k = id)) as [->|Hk].
    + rewrite Hnew. intros [= <-].
      exists (<["band" := JsString band]> props), band.
      split; [done|]. split; [done|]. split; [apply lookup_insert_eq|done].
    + rewrite (Hother k Hk). apply Hwf.
  - exists (<["band" := JsString band]> props).
    split; [done|]. split; [apply lookup_insert_eq|done].
Qed.

Lemma setBand_keeps_selections_witness :
  selectionsFor Sample.catalog
    (setBand "X" "HIGH" (buildDefaultSelections Sample.catalog))
  ∧ (∃ props, setBand "X" "HIGH" (buildDefaultSelections Sample.catalog) !! "X"
              = Some (JsObject props)
              ∧ props !! "band" = Some (JsString "HIGH")
              ∧ props !! "categoryId" = Some (JsString "X"))
  ∧ (∀ k, k ≠ "X" →
       setBand "X" "HIGH" (buildDefaultSelections Sample.catalog) !! k
       = buildDefaultSelections Sample.catalog !! k).
Proof.
  apply (setBand_keeps_selections Sample.catalog "X" "HIGH").
  - apply (normalizeSelections_selectionsFor Sample.catalog JsNull).
  - simpl. right. left. reflexivity.
  - right. right. reflexivity.
Defined.

(** X11: setting the band of a category twice keeps the last band only,
    and band changes of two different categories can be made in either
    order, for any record. *)
Theorem setBand_compose (prev : gmap string JsValue) (id id' band band' : string) :
  setBand id band' (setBand id band prev) = setBand id band' prev
  ∧ (id ≠ id' →
     setBand id band (setBand id' band' prev)
     = setBand id' band' (setBand id band prev)).
Proof.
  split.
  - unfold setBand. rewrite lookup_insert_eq. simpl.
    by rewrite !insert_insert_eq.
  - intros Hne. unfold setBand.
    rewrite !lookup_insert_ne by done.
    by rewrite insert_insert_ne.
Qed.

(** ** Threshold inputs *)

Section ThresholdInputs.
Variable Number : string → option Q.

Lemma applyThresholdInput_ordered s e :
  (deltaMediumThr (applyThresholdInput Number s e)
   <= deltaHighThr (applyThresholdInput Number s e))%Q.
Proof.
  destruct e as [value|value]; simpl.
  - destruct (lt (deltaHighThr s) (Qmax 0 (inputToPct Number value))) eqn:Hlt.
    + lra.
    + by apply lt_false in Hlt.
  - apply Q.le_max_l.
Qed.

Lemma applyThresholdInput_nonneg s e :
  (0 <= deltaMediumThr s)%Q →
  (0 <= deltaMediumThr (applyThresholdInput Number s e))%Q.
Proof. destruct e as [value|value]; simpl; [intros _; apply Q.le_max_l|done]. Qed.

Lemma thresholdInputs_nonneg s es :
  (0 <= deltaMediumThr s)%Q →
  (0 <= deltaMediumThr (foldl (applyThresholdInput Number) s es))%Q.
Proof.
  revert s. induction es as [|e es IH]; intros s Hs; simpl; [done|].
  by apply IH, applyThresholdInput_nonneg.
Qed.

Lemma thresholdInputs_view s es :
  deltaSort (foldl (applyThresholdInput Number) s es) = deltaSort s
  ∧ deltaDriversOnly (foldl (applyThresholdInput Number) s es) = deltaDriversOnly s.
Proof.
  revert s. induction es as [|e es IH]; intros s; simpl; [done|].
  destruct (IH (applyThresholdInput Number s e)) as [-> ->]. by destruct e.
Qed.

Lemma thresholdInputs_ordered s es :
  (deltaMediumThr s <= deltaHighThr s)%Q →
  (deltaMediumThr (foldl (applyThresholdInput Number) s es)
   <= deltaHighThr (foldl (applyThresholdInput Number) s es))%Q.
Proof.
  revert s. induction es as [|e es IH]; intros s Hs; simpl; [done|].
  apply IH, applyThresholdInput_ordered.
Qed.

Lemma thresholdInputs_medium_edit s es value :
  In (MediumInput value) es →
  (0 <= deltaMediumThr (foldl (applyThresholdInput Number) s es))%Q.
Proof.
  revert s. induction es as [|e es IH]; intros s Hin; [done|]. simpl.
  destruct Hin as [->|Hin]; [|by apply IH].
  apply thresholdInputs_nonneg. simpl. apply Q.le_max_l.
Qed.

(** X12: after any edits of the two threshold inputs, at least one, the
    medium threshold is not above the high one, whatever the thresholds
    were before; the medium threshold is not negative once the medium input
    was edited or if it was not negative before; the sort mode and the
    filter flag are not touched. *)
Theorem thresholds_ordered (s : DeltaSettings) (e : ThresholdInput)
    (es : list ThresholdInput) :
  let s' := foldl (applyThresholdInput Number) s (e :: es) in
  (deltaMediumThr s' <= deltaHighThr s')%Q
  ∧ ((0 <= deltaMediumThr s)%Q → (0 <= deltaMediumThr s')%Q)
  ∧ ((∃ value, In (MediumInput value) (e :: es)) → (0 <= deltaMediumThr s')%Q)
  ∧ deltaSort s' = deltaSort s
  ∧ deltaDriversOnly s' = deltaDriversOnly s.
Proof.
  intros s'. split; [|split; [|split]].
  - unfold s'. simpl. apply thresholdInputs_ordered, applyThresholdInput_ordered.
  - apply thresholdInputs_nonneg.
  - intros [value Hin]. by apply thresholdInputs_medium_edit with value.
  - apply thresholdInputs_view.
Qed.
End ThresholdInputs.

(** ** Regions *)

Lemma find_first {A : Type} (p : A → bool) (l : list A) x :
  List.find p l = Some x →
  ∃ l1 l2, l = l1 ++ x :: l2 ∧ p x = true ∧ ∀ y, In y l1 → p y = false.
Proof.
  induction l as [|a l IH]; simpl; [done|].
  destruct (p a) eqn:Ha.
  - intros [= ->]. exists [], l. done.
  - intros Hfind. destruct (IH Hfind) as (l1 & l2 & -> & Hx & Hl1).
    exists (a :: l1), l2. split; [done|]. split; [done|].
    intros y [<-|Hy]; auto.
Qed.

Lemma hasRegion_In library id :
  hasRegion library id = true ↔ In id (map Library.id (Library.regions library)).
Proof.
  unfold hasRegion. rewrite existsb_exists, in_map_iff.
  split; intros (r & H1 & H2).
  - apply String.eqb_eq in H2. eauto.
  - exists r. split; [done|]. by apply String.eqb_eq.
Qed.

(** X13: [pickSecondRegionId] returns the id of the first region whose id
    differs from the primary id; it returns the primary id itself exactly
    when the library has no region with another id. *)
Theorem pickSecondRegionId_spec (lib : Library.BenchmarkLibrary) (primaryId : string) :
  (pickSecondRegionId lib primaryId = primaryId
   ↔ ∀ r, In r (Library.regions lib) → Library.id r = primaryId)
  ∧ (pickSecondRegionId lib primaryId ≠ primaryId →
     ∃ before other after,
       Library.regions lib = before ++ other :: after
       ∧ Library.id other = pickSecondRegionId lib primaryId
       ∧ ∀ r, In r before → Library.id r = primaryId).
Proof.
  unfold pickSecondRegionId.
  destruct (List.find _ _) as [other|] eqn:Hfind.
  - destruct (find_first _ _ _ Hfind) as (before & after & Hsplit & Hother & Hbefore).
    apply negb_true_iff, String.eqb_neq in Hother.
    split.
    + split; [done|]. intros Hall. apply Hall.
      rewrite Hsplit. apply in_or_app. right. by left.
    + intros _. exists before, other, after. split; [done|]. split; [done|].
      intros r Hr. apply Hbefore in Hr.
      by apply negb_false_iff, String.eqb_eq in Hr.
  - split; [|done]. split; [|done]. intros _ r Hr.
    apply (find_none _ _ Hfind) in Hr.
    by apply negb_false_iff, String.eqb_eq in Hr.
Qed.

(** X14: the effect that keeps the region ids valid throws exactly when the
    library has no region; otherwise both ids it leaves are ids of the
    library, an id that was valid is kept, and when neither id was valid
    both scenarios end on the same region, the first of the library. *)
Theorem keepRegionIdsValid_spec (library : Library.BenchmarkLibrary)
    (regionAId regionBId : string) :
  let ids := map Library.id (Library.regions library) in
  (keepRegionIdsValid library regionAId regionBId = None
   ↔ Library.regions library = [])
  ∧ (∀ a b, keepRegionIdsValid library regionAId regionBId = Some (a, b) →
       In a ids ∧ In b ids
       ∧ (In regionAId ids → a = regionAId)
       ∧ (In regionBId ids → b = regionBId)
       ∧ (¬ In regionAId ids → ¬ In regionBId ids →
          b = a ∧ head ids = Some a)).
Proof.
  intros ids. unfold keepRegionIdsValid.
  pose proof (hasRegion_In library regionAId) as HA.
  pose proof (hasRegion_In library regionBId) as HB.
  fold ids in HA, HB.
  destruct (pickSecondRegionId_spec library regionAId) as [Hsame Hother].
  destruct (hasRegion library regionAId) eqn:EA.
  - (* A is valid *)
    assert (HinA : In regionAId ids) by by apply HA.
    split.
    + split; [done|]. intros Hnil. unfold ids in HinA. by rewrite Hnil in HinA.
    + intros a b [= <- <-]. split; [done|].
      assert (Hb : In (if hasRegion library regionBId then regionBId
                       else pickSecondRegionId library regionAId) ids).
      { destruct (hasRegion library regionBId); [by apply HB|].
        destruct (decide (pickSecondRegionId library regionAId = regionAId))
          as [->|Hne]; [done|].
        destruct (Hother Hne) as (before & other & after & Hsplit & <- & _).
        unfold ids. rewrite Hsplit. apply in_map, in_or_app. right. by left. }
      split; [done|]. split; [done|]. split; [|done].
      intros HinB. apply HB in HinB. by rewrite HinB.
  - (* A is not valid *)
    assert (HnotA : ¬ In regionAId ids).
    { intros Hin. apply HA in Hin. congruence. }
    destruct (Library.regions library) as [|first rest] eqn:Hregions.
    + split; [done|]. done.
    + split; [done|]. intros a b [= <- <-].
      assert (Hfirst : In (Library.id first) ids).
      { unfold ids. rewrite ?Hregions. by left. }
      assert (Hpick : pickSecondRegionId library regionAId = Library.id first).
      { unfold pickSecondRegionId. rewrite Hregions. simpl.
        destruct (String.eqb (Library.id first) regionAId) eqn:E; [|done].
        apply String.eqb_eq in E. destruct HnotA. by rewrite <- E. }
      split; [done|]. rewrite Hpick.
      split; [destruct (hasRegion library regionBId); [by apply HB|done]|].
      split; [done|]. split.
      * intros HinB. apply HB in HinB. by rewrite HinB.
      * intros _ HnotB.
        destruct (hasRegion library regionBId) eqn:EB; [by destruct HnotB; apply HB|].
        split; [done|]. unfold ids. by rewrite ?Hregions.
Qed.

(** ** Stored preferences *)

Section StoredPreferences.
Variable Number : string → option Q.
Variable numberToString : Q → string.
Variable accepts : gmap string string → string → string → bool.

Lemma setItemsUntilThrow_accepted items writes :
  allAccepted accepts items writes = true →
  setItemsUntilThrow accepts (Available items) writes
  = Available (foldl (λ m kv, <[kv.1 := kv.2]> m) items writes).
Proof.
  revert items. induction writes as [|[key value] writes IH]; intros items; simpl.
  - done.
  - intros [Hfirst Hrest]%andb_true_iff. rewrite Hfirst. by apply IH.
Qed.

Lemma setItemsUntilThrow_other ls writes key :
  ¬ In key (map fst writes) →
  getItem (setItemsUntilThrow accepts ls writes) key = getItem ls key.
Proof.
  revert ls. induction writes as [|[k v] writes IH]; intros ls Hkey; simpl; [done|].
  simpl in Hkey.
  destruct ls as [|items]; simpl; [done|].
  destruct (accepts items k v); [|done].
  rewrite IH by tauto. simpl. rewrite lookup_insert_ne; [done|tauto].
Qed.

Lemma setItemsUntilThrow_available ls writes :
  setItemsUntilThrow accepts ls writes = Unavailable ↔ ls = Unavailable.
Proof.
  revert ls. induction writes as [|[k v] writes IH]; intros ls; simpl; [done|].
  destruct ls as [|items]; simpl; [done|].
  destruct (accepts items k v); [|done]. by rewrite IH.
Qed.

Lemma storedNumber_text items key (ok : Q → bool) fallback text n :
  items !! key = Some text → text ≠ EmptyString → Number text = Some n →
  ok n = true →
  storedNumber Number (Available items) key ok fallback = n.
Proof.
  intros Hitem Htext Hn Hok. unfold storedNumber. simpl. rewrite Hitem.
  apply String.eqb_neq in Htext. by rewrite Htext, Hn, Hok.
Qed.

(** X15: when the browser takes the four writes of the delta settings
    effect and the two thresholds survive [String] followed by [Number], the
    settings a fresh page reads from storage are the ones that were
    stored. *)
Theorem deltaSettings_round_trip (s : DeltaSettings) (items : gmap string string) :
  allAccepted accepts items (deltaSettingsWrites numberToString s) = true →
  numberToString (deltaMediumThr s) ≠ EmptyString →
  Number (numberToString (deltaMediumThr s)) = Some (deltaMediumThr s) →
  numberToString (deltaHighThr s) ≠ EmptyString →
  Number (numberToString (deltaHighThr s)) = Some (deltaHighThr s) →
  initialDeltaSettings Number
    (persistDeltaSettings numberToString accepts s (Available items)) = s.
Proof.
  intros Hacc Hm1 Hm2 Hh1 Hh2. unfold persistDeltaSettings.
  rewrite (setItemsUntilThrow_accepted _ _ Hacc). simpl.
  unfold initialDeltaSettings, initialDeltaMediumThr, initialDeltaHighThr,
    initialDeltaSort, initialDeltaDriversOnly, storedIs.
  rewrite (storedNumber_text _ _ _ _ (numberToString (deltaMediumThr s))
             (deltaMediumThr s)); [|by simplify_map_eq|done..].
  rewrite (storedNumber_text _ _ _ _ (numberToString (deltaHighThr s))
             (deltaHighThr s)); [|by simplify_map_eq|done..].
  simpl. simplify_map_eq.
  destruct s as [m h sort only]. simpl. f_equal.
  - by destruct sort.
  - by destruct only.
Qed.

(** X16: the effect that stores the delta settings never touches another
    key and never makes storage unavailable, whether its writes are taken
    or refused. *)
Theorem persistDeltaSettings_other_keys (s : DeltaSettings) (ls : LocalStorage)
    (key : string) :
  (key ≠ "vmx_delta_medium_thr_v1" → key ≠ "vmx_delta_high_thr_v1" →
   key ≠ "vmx_delta_sort_v1" → key ≠ "vmx_delta_drivers_only_v1" →
   getItem (persistDeltaSettings numberToString accepts s ls) key = getItem ls key)
  ∧ (persistDeltaSettings numberToString accepts s ls = Unavailable
     ↔ ls = Unavailable).
Proof.
  split; [|apply setItemsUntilThrow_available].
  intros H1 H2 H3 H4. apply setItemsUntilThrow_other. simpl.
  intros [?|[?|[?|[?|[]]]]]; congruence.
Qed.

(** X17: the area a fresh page starts with is always positive: it is the
    stored number when that is finite and positive and 15000 in every other
    case, also when storage throws; a positive area that was stored and
    survives [String] followed by [Number] is read back. *)
Theorem initialAreaSqft_positive (ls : LocalStorage) :
  (0 < initialAreaSqft Number ls)%Q
  ∧ (initialAreaSqft Number ls = 15000%Q
     ∨ ∃ raw, getItem ls "vmx_area_sqft_v1" = Some (Some raw)
              ∧ Number raw = Some (initialAreaSqft Number ls))
  ∧ (∀ items areaSqft,
       ls = persistArea numberToString accepts areaSqft (Available items) →
       accepts items "vmx_area_sqft_v1" (numberToString areaSqft) = true →
       numberToString areaSqft ≠ EmptyString →
       Number (numberToString areaSqft) = Some areaSqft →
       (0 < areaSqft)%Q →
       initialAreaSqft Number ls = areaSqft).
Proof.
  split; [|split].
  - unfold initialAreaSqft, storedNumber.
    destruct (getItem ls _) as [[raw|]|]; simpl; try done.
    destruct (String.eqb raw EmptyString); simpl; [done|].
    destruct (Number raw) as [n|]; [|done].
    destruct (gt n 0) eqn:Hn; [by apply gt_true in Hn|done].
  - unfold initialAreaSqft, storedNumber.
    destruct (getItem ls _) as [[raw|]|]; simpl; auto.
    destruct (String.eqb raw EmptyString); simpl; auto.
    destruct (Number raw) as [n|] eqn:Hraw; auto.
    destruct (gt n 0); auto. right. eauto.
  - intros items areaSqft -> Hacc Htext Hnum Hpos.
    unfold persistArea. simpl. rewrite Hacc.
    apply storedNumber_text with (numberToString areaSqft);
      [by simplify_map_eq|done|done|by apply gt_true].
Qed.
End StoredPreferences.

Lemma deltaSettings_round_trip_witness :
  initialDeltaSettings SampleState.number
    (persistDeltaSettings SampleState.numberText SampleState.roomy
                          SampleState.settings (Available ∅))
  = SampleState.settings.
Proof.
  apply (deltaSettings_round_trip SampleState.number SampleState.numberText
           SampleState.roomy SampleState.settings ∅).
  - reflexivity.
  - vm_compute. discriminate.
  - vm_compute. reflexivity.
  - vm_compute. discriminate.
  - vm_compute. reflexivity.
Defined.

(** ** Stored selections *)

Section StoredSelections.
Variable JSON_parse : string → option JsValue.
Variable JSON_stringify : JsValue → string.
Variable accepts : gmap string string → string → string → bool.
Variable VMX_CATEGORIES : list Domain.VmxCategory.

(** X18: a complete, well-formed record of selections that was written
    with [writeJson] is what a fresh page starts with, provided the browser
    took the write and the text parses back to the record. *)
Theorem selections_round_trip (key : string) (sel : gmap string JsValue)
    (items : gmap string string) :
  selectionsFor VMX_CATEGORIES sel →
  accepts items key (JSON_stringify (JsObject sel)) = true →
  JSON_stringify (JsObject sel) ≠ EmptyString →
  JSON_parse (JSON_stringify (JsObject sel)) = Some (JsObject sel) →
  initialSelections JSON_parse VMX_CATEGORIES
    (writeJson JSON_stringify accepts key (JsObject sel) (Available items)) key
  = sel.
Proof.
  intros Hsel Hacc Htext Hparse.
  unfold initialSelections, writeJson, readJson. simpl. rewrite Hacc. simpl.
  rewrite lookup_insert_eq.
  apply String.eqb_neq in Htext. rewrite Htext, Hparse.
  apply map_eq. intros k. by apply normalizeSelections_own_lookup.
Qed.

(** X19: whatever storage holds, a fresh page starts with a complete,
    well-formed record of selections; it starts with the default selections
    when storage throws, when the item is missing or empty, and when its
    text does not parse. *)
Theorem initialSelections_valid (ls : LocalStorage) (key : string) :
  selectionsFor VMX_CATEGORIES (initialSelections JSON_parse VMX_CATEGORIES ls key)
  ∧ ((ls = Unavailable
      ∨ getItem ls key = Some None
      ∨ getItem ls key = Some (Some EmptyString)
      ∨ (∃ raw, getItem ls key = Some (Some raw) ∧ JSON_parse raw = None)) →
     initialSelections JSON_parse VMX_CATEGORIES ls key
     = buildDefaultSelections VMX_CATEGORIES).
Proof.
  split; [apply normalizeSelections_selectionsFor|].
  unfold initialSelections, readJson.
  intros [->|[->|[->|(raw & -> & Hraw)]]]; try done.
  destruct (String.eqb raw EmptyString); [done|]. by rewrite Hraw.
Qed.
End StoredSelections.

Lemma selections_round_trip_witness :
  initialSelections SampleState.parse Sample.catalog
    (writeJson SampleState.stringify SampleState.roomy "vmx_sel_a_v1"
               (JsObject SampleState.selections) (Available ∅))
    "vmx_sel_a_v1"
  = SampleState.selections.
Proof.
  apply (selections_round_trip SampleState.parse SampleState.stringify
           SampleState.roomy Sample.catalog "vmx_sel_a_v1"
           SampleState.selections ∅).
  - apply normalizeSelections_selectionsFor.
  - reflexivity.
  - vm_compute. discriminate.
  - reflexivity.
Defined.

(** ** Comparing a result with itself *)

(** X20: a result whose entries have distinct ids, compared with itself,
    gives a report in which every row is flat with a zero [deltaCost], a
    zero [deltaPct] and a zero impact fraction, no row is a top driver, the
    two summary lists are empty and [totalDelta] is zero. *)
Theorem self_comparison VMX_CATEGORIES settings resultA :
  NoDup (map Domain.categoryId (Domain.categories resultA)) →
  ∃ rep,
    delta VMX_CATEGORIES settings true (Some resultA) (Some resultA) = Normal (Some rep)
    ∧ totalDelta rep == 0
    ∧ increases rep = []
    ∧ decreases rep = []
    ∧ ∀ r, In r (rows rep) →
        deltaCost r == 0 ∧ deltaPct r == 0 ∧ absFracOfATotal r == 0
        ∧ direction r = flat ∧ isTopDriver r = false.
Proof.
  intros Hnd.
  destruct (baseRows_returns settings resultA resultA) as [base Hbase].
  { intros a Ha. by apply in_map. }
  destruct (delta_returns VMX_CATEGORIES _ _ _ _ Hbase) as [rep Hrep].
  exists rep. split; [done|].
  assert (Hzero : ∀ r, In r (rows rep) → deltaCost r == 0 ∧ deltaPct r == 0).
  { intros r Hr.
    destruct (report_row _ _ _ _ _ _ Hrep Hr)
      as (base' & r0 & a & _ & _ & _ & -> & Ha & Hrow).
    apply baseRow_Normal in Hrow as (b & Hfind & _ & Hcost & Hpct & _).
    assert (a = b) as <- by by apply (find_by_id _ a b Hnd Hfind).
    simpl. rewrite Hcost, Hpct. split; ring. }
  pose proof Hrep as Hrep'.
  apply delta_Normal in Hrep' as (base' & Hbase' & Hrows & Hinc & Hdec & Htotal).
  split; [rewrite Htotal; ring|].
  split; [|split].
  - rewrite Hinc. unfold largestIncreases. rewrite filter_none; [done|].
    intros r Hr. apply gt_false. destruct (Hzero r Hr) as [-> _]. lra.
  - rewrite Hdec. unfold largestDecreases. rewrite filter_none; [done|].
    intros r Hr. apply lt_false. destruct (Hzero r Hr) as [-> _]. lra.
  - intros r Hr. destruct (Hzero r Hr) as [Hcost Hpct].
    split; [done|]. split; [done|].
    split; [|split].
    + rewrite (report_row_fraction _ _ _ _ _ _ Hrep Hr).
      by apply fraction_of_zero.
    + rewrite (report_row_direction _ _ _ _ _ _ Hrep Hr).
      rewrite (proj2 (gt_false _ _)), (proj2 (lt_false _ _)); [done|lra|lra].
    + destruct (isTopDriver r) eqn:Htop; [|done].
      apply (rows_In_marked _ _ _ _ _ Hrows), markedRows_In in Hr as (a & Ha & ->).
      simpl in Htop, Hcost. apply bool_decide_eq_true in Htop.
      assert (Hnd' : NoDup (map categoryId base'))
        by by rewrite (baseRows_ids _ _ _ _ Hbase').
      apply (topSet_row base' a Hnd' Ha) in Htop.
      apply firstn_In, byAbs_In, eligible_In in Htop. tauto.
Qed.

Lemma self_comparison_witness :
  ∃ rep,
    delta Sample.catalog (Sample.settingsWith impact false) true
          (Some Sample.scenarioA) (Some Sample.scenarioA) = Normal (Some rep)
    ∧ totalDelta rep == 0
    ∧ increases rep = []
    ∧ decreases rep = []
    ∧ ∀ r, In r (rows rep) →
        deltaCost r == 0 ∧ deltaPct r == 0 ∧ absFracOfATotal r == 0
        ∧ direction r = flat ∧ isTopDriver r = false.
Proof.
  apply (self_comparison Sample.catalog (Sample.settingsWith impact false)
           Sample.scenarioA).
  apply (bool_decide_unpack _). vm_compute. exact I.
Defined.

(** ** From the evaluations to the comparison *)

(** X21: outside compare mode scenario B is not evaluated: its result and
    its error are both null and there is no report.  A failed evaluation
    of either scenario gives no report and does not make the comparison
    throw; a report is made only in compare mode from two evaluations that
    returned, and then both errors are null. *)
Theorem comparison_needs_both {BenchmarkSet ScenarioSelection : Type}
    (computeScenarioResult :
       Q → BenchmarkSet → list ScenarioSelection → Completion Domain.ScenarioResult)
    VMX_CATEGORIES settings compareMode areaSqft benchmarkA benchmarkB
    selectionsA selectionsB :
  let cA := computedA computeScenarioResult areaSqft benchmarkA selectionsA in
  let cB := computedB computeScenarioResult compareMode areaSqft benchmarkB selectionsB in
  let cmp := comparison computeScenarioResult VMX_CATEGORIES settings compareMode
                        areaSqft benchmarkA benchmarkB selectionsA selectionsB in
  (compareMode = false → result cB = None ∧ error cB = None ∧ cmp = Normal None)
  ∧ ((∃ e, computeScenarioResult areaSqft benchmarkA selectionsA = Throw e)
     ∨ (∃ e, computeScenarioResult areaSqft benchmarkB selectionsB = Throw e) →
     cmp = Normal None)
  ∧ (∀ rep, cmp = Normal (Some rep) →
       compareMode = true ∧ error cA = None ∧ error cB = None
       ∧ ∃ resultA resultB,
           computeScenarioResult areaSqft benchmarkA selectionsA = Normal resultA
           ∧ computeScenarioResult areaSqft benchmarkB selectionsB = Normal resultB
           ∧ delta VMX_CATEGORIES settings true (Some resultA) (Some resultB)
             = Normal (Some rep)).
Proof.
  intros cA cB cmp.
  unfold cmp, comparison, cA, cB, computedA, computedB, computeSafe.
  split; [|split].
  - intros ->. simpl. done.
  - intros [[e He]|[e He]]; rewrite He; simpl.
    + by destruct compareMode.
    + destruct compareMode; simpl; [|done].
      by destruct (computeScenarioResult areaSqft benchmarkA selectionsA).
  - intros rep. destruct compareMode; simpl; [|done].
    destruct (computeScenarioResult areaSqft benchmarkA selectionsA) as [rA|eA];
      simpl; [|done].
    destruct (computeScenarioResult areaSqft benchmarkB selectionsB) as [rB|eB];
      simpl; [|done].
    intros Hrep. split; [done|]. split; [done|]. split; [done|]. eauto.
Qed.

(** Rows of equal magnitude: "W" (+100) stands before "X" (-100) in impact
    mode, as in the catalog. *)
Example tie_example :
  let rep := Sample.reportOf (Sample.settingsWith impact false)
                             Sample.scenarioA SampleState.tiedB in
  map (λ r, (categoryId r, deltaCost r)) (rows rep)
  = [ ("W", 100%Q); ("X", (-100)%Q); ("Y", (-80)%Q); ("Z", 10%Q) ].
Proof. vm_compute. reflexivity. Qed.
